(** * Scratch space manager ([temp_manager.py]): model and verification

    The development embeds the class [TempManager] of [temp_manager.py]
    together with the part of its environment that its methods act on: a file
    system, a wall clock, the random name source of [tempfile], the
    [threading.Timer] objects, the [atexit] registry and the [loguru] sink.

    Conventions.
    - A method of signature [def m(self, x) -> r] becomes a computation
      [m x : M r] in a state-and-exception monad over [world]; the single
      manager instance of [main.py] is the field [self] of the world.
    - Time stamps and durations are exact integers (clock ticks); the rounding
      of Python floats is outside the model.
    - A file-system path is the list of its components below the root, the
      form a [pathlib.Path] keeps; [fspath] renders it as Python's [str].
    - A [str] that names a file is the byte string [os.fsencode] makes of it.
      One component of a path holds at most [NAME_MAX] bytes and no NUL byte;
      the limit on the length of a whole path ([PATH_MAX]) is outside the
      model.
    - The order in which [os.listdir] yields the entries of a directory is the
      order of [children], fixed but unspecified. *)

From stdpp Require Import gmap strings list fin_maps.
From Stdlib Require Import ZArith Ascii.

Local Open Scope Z_scope.

(** ** Paths *)

Abbreviation path := (list string).

Definition sep : ascii := "/"%char.

(** [str(p)] for an absolute [pathlib.Path]. *)
Definition fspath (p : path) : string :=
  String sep (String.concat (String sep EmptyString) p).

(** [s.startswith("/")], which is [posixpath.isabs]. *)
Definition isabs (s : string) : bool :=
  match s with
  | String c _ => Ascii.eqb c sep
  | EmptyString => false
  end.

Fixpoint endswith_sep (s : string) : bool :=
  match s with
  | EmptyString => false
  | String c EmptyString => Ascii.eqb c sep
  | String _ s' => endswith_sep s'
  end.

(** [posixpath.join(a, b)]. *)
Definition join (a b : string) : string :=
  if isabs b then b
  else match a with
       | EmptyString => b
       | _ => if endswith_sep a then a +:+ b else a +:+ String sep b
       end.

(** [s.split("/")]. *)
Fixpoint split_sep (s : string) : list string :=
  match s with
  | EmptyString => [EmptyString]
  | String c s' =>
      if Ascii.eqb c sep then EmptyString :: split_sep s'
      else match split_sep s' with
           | h :: t => String c h :: t
           | [] => [String c EmptyString]
           end
  end.

Fixpoint has_sep (s : string) : bool :=
  match s with
  | EmptyString => false
  | String c s' => Ascii.eqb c sep || has_sep s'
  end.

(** [s] holds a NUL byte. *)
Fixpoint has_nul (s : string) : bool :=
  match s with
  | EmptyString => false
  | String c s' => Ascii.eqb c Ascii.zero || has_nul s'
  end.

(** The longest file name, in bytes, that the file system accepts. *)
Definition NAME_MAX : nat := 255.

(** The parent of [p]; the root is its own parent. *)
Definition dirname (p : path) : path := removelast p.

(** [child_name d p] is [Some n] exactly when [p = d ++ [n]]. *)
Definition child_name (d p : path) : option string :=
  if decide (take (length d) p = d) then
    match drop (length d) p with
    | [n] => Some n
    | _ => None
    end
  else None.

(** ** The world the manager runs in *)

Inductive file_type := S_IFREG | S_IFDIR.

#[global] Instance file_type_eq_dec : EqDecision file_type.
Proof. solve_decision. Defined.

(** What [os.stat] reports of a directory entry. *)
Record inode := {
  st_mode : file_type;
  st_mtime : Z;
  st_size : Z
}.

(** Bound methods of the manager that are handed to the runtime. *)
Inductive callback := cb_remove_old_files | cb_exit.

(** A [threading.Timer]: [Initial] until [start()], [Waiting] from then until
    it fires or is cancelled, [Running] while its function executes.
    [cancel()] only sets the [finished] event, so it stops a timer that has not
    fired yet and nothing else. *)
Inductive timer_status := Initial | Waiting | Running | Cancelled | Done.

#[global] Instance timer_status_eq_dec : EqDecision timer_status.
Proof. solve_decision. Defined.

Record Timer := {
  interval : Z;
  function : callback;
  status : timer_status
}.

Inductive level := DEBUG | INFO.

Record TempManager := {
  check_interval : Z;
  remove_timeout : Z;
  timer : option nat;        (* a reference into [timers] *)
  temp_dir : option path
}.

Record world := {
  self : TempManager;
  fs : gmap path inode;        (* every existing file and directory *)
  timers : list Timer;         (* the Timer objects, by allocation order *)
  exit_hooks : list callback;  (* the [atexit] registry *)
  log : list (level * string); (* records emitted through [logger] *)
  clock : nat -> Z;            (* the successive readings of the wall clock *)
  ticks : nat;                 (* readings taken so far *)
  rand : nat -> nat;           (* the successive draws of [tempfile]'s rng *)
  draws : nat;                 (* draws taken so far *)
  tempdir : path;              (* [tempfile.gettempdir()] *)
  TMP_MAX : nat                (* [tempfile.TMP_MAX], a platform constant *)
}.

Definition set_self (f : TempManager -> TempManager) (w : world) : world :=
  {| self := f (self w); fs := fs w; timers := timers w;
     exit_hooks := exit_hooks w; log := log w; clock := clock w;
     ticks := ticks w; rand := rand w; draws := draws w; tempdir := tempdir w;
     TMP_MAX := TMP_MAX w |}.

Definition set_fs (f : gmap path inode -> gmap path inode) (w : world) : world :=
  {| self := self w; fs := f (fs w); timers := timers w;
     exit_hooks := exit_hooks w; log := log w; clock := clock w;
     ticks := ticks w; rand := rand w; draws := draws w; tempdir := tempdir w;
     TMP_MAX := TMP_MAX w |}.

Definition set_timers (f : list Timer -> list Timer) (w : world) : world :=
  {| self := self w; fs := fs w; timers := f (timers w);
     exit_hooks := exit_hooks w; log := log w; clock := clock w;
     ticks := ticks w; rand := rand w; draws := draws w; tempdir := tempdir w;
     TMP_MAX := TMP_MAX w |}.

Definition set_exit_hooks (f : list callback -> list callback) (w : world) : world :=
  {| self := self w; fs := fs w; timers := timers w;
     exit_hooks := f (exit_hooks w); log := log w; clock := clock w;
     ticks := ticks w; rand := rand w; draws := draws w; tempdir := tempdir w;
     TMP_MAX := TMP_MAX w |}.

Definition set_log (f : list (level * string) -> list (level * string))
    (w : world) : world :=
  {| self := self w; fs := fs w; timers := timers w;
     exit_hooks := exit_hooks w; log := f (log w); clock := clock w;
     ticks := ticks w; rand := rand w; draws := draws w; tempdir := tempdir w;
     TMP_MAX := TMP_MAX w |}.

Definition set_ticks (f : nat -> nat) (w : world) : world :=
  {| self := self w; fs := fs w; timers := timers w;
     exit_hooks := exit_hooks w; log := log w; clock := clock w;
     ticks := f (ticks w); rand := rand w; draws := draws w; tempdir := tempdir w;
     TMP_MAX := TMP_MAX w |}.

Definition set_draws (f : nat -> nat) (w : world) : world :=
  {| self := self w; fs := fs w; timers := timers w;
     exit_hooks := exit_hooks w; log := log w; clock := clock w;
     ticks := ticks w; rand := rand w; draws := f (draws w);
     tempdir := tempdir w; TMP_MAX := TMP_MAX w |}.

Definition set_timer (t : option nat) (m : TempManager) : TempManager :=
  {| check_interval := check_interval m; remove_timeout := remove_timeout m;
     timer := t; temp_dir := temp_dir m |}.

Definition set_temp_dir (d : option path) (m : TempManager) : TempManager :=
  {| check_interval := check_interval m; remove_timeout := remove_timeout m;
     timer := timer m; temp_dir := d |}.

(** ** Exceptions and the monad of methods *)

Inductive exn :=
  | AttributeError       (* attribute access on [None] *)
  | FileNotFoundError    (* ENOENT *)
  | FileExistsError      (* EEXIST *)
  | IsADirectoryError    (* EISDIR *)
  | NotADirectoryError   (* ENOTDIR *)
  | OSError_ENOTEMPTY    (* [OSError], errno ENOTEMPTY *)
  | OSError_ENAMETOOLONG (* [OSError], errno ENAMETOOLONG *)
  | ValueError.          (* embedded null byte *)

#[global] Instance exn_eq_dec : EqDecision exn.
Proof. solve_decision. Defined.

Inductive outcome (A : Type) :=
  | Ok (a : A)
  | Raise (e : exn).
Arguments Ok {A} a.
Arguments Raise {A} e.

Definition M (A : Type) : Type := world -> outcome A * world.

Definition ret {A} (a : A) : M A := fun w => (Ok a, w).

Definition raise {A} (e : exn) : M A := fun w => (Raise e, w).

Definition bind {A B} (m : M A) (k : A -> M B) : M B :=
  fun w =>
    match m w with
    | (Ok a, w') => k a w'
    | (Raise e, w') => (Raise e, w')
    end.

Declare Scope py_scope.
Delimit Scope py_scope with py.
Notation "x <- m ;; k" := (bind m (fun x => k))
  (at level 100, m at next level, right associativity) : py_scope.
Notation "m ;; k" := (bind m (fun _ => k))
  (at level 100, right associativity) : py_scope.
Local Open Scope py_scope.

(** [for x in l: body(x)]; an exception in the body leaves the loop. *)
Fixpoint for_each {A} (body : A -> M unit) (l : list A) : M unit :=
  match l with
  | [] => ret tt
  | x :: l' => body x ;; for_each body l'
  end.

Definition modify (f : world -> world) : M unit := fun w => (Ok tt, f w).

Definition gets {A} (f : world -> A) : M A := fun w => (Ok (f w), w).

Definition try_except {A} (m : M A) (e : exn) (handler : M A) : M A :=
  fun w =>
    match m w with
    | (Raise e', w') => if decide (e' = e) then handler w' else (Raise e', w')
    | r => r
    end.

(** ** The file system ([os], [pathlib]) *)

(** The names of the entries directly inside [d]. *)
Definition children (d : path) (m : gmap path inode) : list string :=
  omap (fun e : path * inode => child_name d e.1) (map_to_list m).

(** Path resolution from directory [cur] along the components [cs]; there are
    no symbolic links. A component longer than [NAME_MAX] is refused when it
    is looked up, which is after the directory it is looked up in was found
    to be one. *)
Fixpoint walk (m : gmap path inode) (cur : path) (cs : list string)
    : outcome path :=
  match m !! cur with
  | None => Raise FileNotFoundError
  | Some i =>
      match st_mode i with
      | S_IFREG => Raise NotADirectoryError
      | S_IFDIR =>
          match cs with
          | [] => Ok cur
          | c :: cs' =>
              if decide (c = "" ∨ c = ".") then walk m cur cs'
              else if decide (c = "..") then walk m (dirname cur) cs'
              else if (NAME_MAX <? String.length c)%nat
                   then Raise OSError_ENAMETOOLONG
              else walk m (cur ++ [c]) cs'
          end
      end
  end.

Fixpoint strip_trailing_empty (cs : list string) : list string :=
  match cs with
  | [] => []
  | c :: cs' =>
      match strip_trailing_empty cs' with
      | [] => if decide (c = "") then [] else [c]
      | r => c :: r
      end
  end.

(** The path at which [open(join(dir, file), O_CREAT | O_EXCL)] creates its
    file, or the error of the system call. A [file] that starts with a
    separator replaces [dir] ([posixpath.join]); a trailing separator is
    refused with EISDIR before the component in front of it is looked up; the
    final component must be no longer than [NAME_MAX] and must not exist
    yet. *)
Definition resolve_create (m : gmap path inode) (dir : path) (file : string)
    : outcome path :=
  let start := if isabs file then [] else dir in
  let cs := split_sep file in
  match last cs with
  | None => Raise FileNotFoundError
  | Some l =>
      if decide (l = "") then
        match walk m start (removelast (strip_trailing_empty cs)) with
        | Ok _ => Raise IsADirectoryError
        | Raise e => Raise e
        end
      else
        match walk m start (removelast cs) with
        | Raise e => Raise e
        | Ok parent =>
            if decide (l = "." ∨ l = "..") then Raise FileExistsError
            else if (NAME_MAX <? String.length l)%nat
                 then Raise OSError_ENAMETOOLONG
            else match m !! (parent ++ [l]) with
                 | Some _ => Raise FileExistsError
                 | None => Ok (parent ++ [l])
                 end
        end
  end.

Module time.
(** [time.time()]: the next reading of the clock. *)
Definition time : M Z :=
  fun w => (Ok (clock w (ticks w)), set_ticks S w).
End time.

Module os.

Definition listdir (d : path) : M (list string) :=
  fun w =>
    match fs w !! d with
    | None => (Raise FileNotFoundError, w)
    | Some i =>
        match st_mode i with
        | S_IFDIR => (Ok (children d (fs w)), w)
        | S_IFREG => (Raise NotADirectoryError, w)
        end
    end.

Definition stat (p : path) : M inode :=
  fun w =>
    match fs w !! p with
    | None => (Raise FileNotFoundError, w)
    | Some i => (Ok i, w)
    end.

Definition unlink (p : path) : M unit :=
  fun w =>
    match fs w !! p with
    | None => (Raise FileNotFoundError, w)
    | Some i =>
        match st_mode i with
        | S_IFDIR => (Raise IsADirectoryError, w)
        | S_IFREG => (Ok tt, set_fs (delete p) w)
        end
    end.

Definition rmdir (p : path) : M unit :=
  fun w =>
    match fs w !! p with
    | None => (Raise FileNotFoundError, w)
    | Some i =>
        match st_mode i with
        | S_IFREG => (Raise NotADirectoryError, w)
        | S_IFDIR =>
            match children p (fs w) with
            | [] => (Ok tt, set_fs (delete p) w)
            | _ :: _ => (Raise OSError_ENOTEMPTY, w)
            end
        end
    end.

(** [os.mkdir(join(parent, name))] for a [name] of one component. As for
    [os.open] below, a NUL byte is a [ValueError] raised before the system
    call, and a name longer than [NAME_MAX] is refused once [parent] was
    found to be a directory. *)
Definition mkdir (parent : path) (name : string) : M unit :=
  fun w =>
    if has_nul name then (Raise ValueError, w)
    else
      match fs w !! parent with
      | None => (Raise FileNotFoundError, w)
      | Some i =>
          match st_mode i with
          | S_IFREG => (Raise NotADirectoryError, w)
          | S_IFDIR =>
              if (NAME_MAX <? String.length name)%nat
              then (Raise OSError_ENAMETOOLONG, w)
              else
                match fs w !! (parent ++ [name]) with
                | Some _ => (Raise FileExistsError, w)
                | None =>
                    let now := clock w (ticks w) in
                    let i' := {| st_mode := S_IFDIR; st_mtime := now;
                                 st_size := 0 |} in
                    (Ok tt, set_fs <[parent ++ [name] := i']> (set_ticks S w))
                end
          end
      end.

(** [os.open(join(dir, file), O_RDWR | O_CREAT | O_EXCL, 0o600)]. The
    argument is converted first: a NUL byte in it is a [ValueError], raised
    before any system call. [dir] is the path of a directory that [mkdtemp]
    made or [gettempdir] found, so the bytes that can offend are those of
    [file]. The new file is empty and stamped with the current time. *)
Definition open_excl (dir : path) (file : string) : M unit :=
  fun w =>
    if has_nul file then (Raise ValueError, w)
    else
      match resolve_create (fs w) dir file with
      | Raise e => (Raise e, w)
      | Ok p =>
          let now := clock w (ticks w) in
          let i := {| st_mode := S_IFREG; st_mtime := now; st_size := 0 |} in
          (Ok tt, set_fs <[p := i]> (set_ticks S w))
      end.

End os.

(** ** [loguru] *)

Module logger.
Definition info (msg : string) : M unit :=
  modify (set_log (fun l => l ++ [(INFO, msg)])).
Definition debug (msg : string) : M unit :=
  modify (set_log (fun l => l ++ [(DEBUG, msg)])).
End logger.

(** ** [tempfile] *)

Module tempfile.

(** [_RandomNameSequence.characters]. *)
Definition characters : list ascii :=
  String.list_ascii_of_string "abcdefghijklmnopqrstuvwxyz0123456789_".

(** [rng.choices(characters, k)]: the [k] characters selected by the
    base-37 digits of the draw [n]. *)
Fixpoint choices (k n : nat) : string :=
  match k with
  | O => EmptyString
  | S k' =>
      String (nth (n mod 37) characters "a"%char) (choices k' (n / 37))
  end.

(** [next(_get_candidate_names())]. *)
Definition next_name : M string :=
  fun w => (Ok (choices 8 (rand w (draws w))), set_draws S w).

Definition gettempdir : M path := gets tempdir.

(** The loop of [mkdtemp], [n] candidate names left to try. *)
Fixpoint mkdtemp_loop (n : nat) (dir : path) (prefix suffix : string)
    : M path :=
  match n with
  | O => raise FileExistsError
  | S n' =>
      name <- next_name ;;
      let file := prefix +:+ name +:+ suffix in
      try_except (os.mkdir dir file ;; ret (dir ++ [file]))
        FileExistsError (mkdtemp_loop n' dir prefix suffix)
  end.

(** [tempfile.mkdtemp(prefix=prefix)], returned as the [Path] made of it. *)
Definition mkdtemp (prefix : string) : M path :=
  dir <- gettempdir ;;
  n <- gets TMP_MAX ;;
  mkdtemp_loop n dir prefix EmptyString.

(** [_mkstemp_inner], [n] candidate names left to try; returns the name of
    the file it created. *)
Fixpoint mkstemp_inner (n : nat) (dir : path) (pre suf : string)
    : M string :=
  match n with
  | O => raise FileExistsError
  | S n' =>
      name <- next_name ;;
      let file := pre +:+ name +:+ suf in
      try_except (os.open_excl dir file ;; ret (join (fspath dir) file))
        FileExistsError (mkstemp_inner n' dir pre suf)
  end.

(** [_sanitize_params] followed by
    [NamedTemporaryFile(dir=dir, prefix=prefix, suffix=suffix, delete=False).name]. *)
Definition NamedTemporaryFile (dir : option path) (prefix suffix : option string)
    : M string :=
  let suffix' := default EmptyString suffix in
  let prefix' := default "tmp" prefix in
  dir' <- match dir with Some d => ret d | None => gettempdir end ;;
  n <- gets TMP_MAX ;;
  mkstemp_inner n dir' prefix' suffix'.

End tempfile.

(** ** [threading.Timer] and [atexit] *)

Module threading.

(** [Timer(interval, function)]: a new timer object, not yet started. *)
Definition new_Timer (interval : Z) (function : callback) : M nat :=
  fun w =>
    let t := {| interval := interval; function := function; status := Initial |} in
    (Ok (length (timers w)), set_timers (fun l => l ++ [t]) w).

Definition set_status (s : timer_status) (t : Timer) : Timer :=
  {| interval := interval t; function := function t; status := s |}.

Definition start (id : nat) : M unit :=
  modify (set_timers (alter
    (fun t => match status t with Initial => set_status Waiting t | _ => t end) id)).

Definition cancel (id : nat) : M unit :=
  modify (set_timers (alter
    (fun t => match status t with
              | Initial | Waiting => set_status Cancelled t
              | _ => t
              end) id)).

End threading.

Module atexit.
Definition register (cb : callback) : M unit :=
  modify (set_exit_hooks (fun l => l ++ [cb])).
End atexit.

(** ** [class TempManager] *)

(** [def __init__(self, check_interval=60, remove_timeout=600)]; an argument
    left out is [None] here. *)
Definition __init__ (check_interval remove_timeout : option Z) : M unit :=
  modify (set_self (fun _ =>
    {| check_interval := default 60 check_interval;
       remove_timeout := default 600 remove_timeout;
       timer := None;
       temp_dir := None |})) ;;
  atexit.register cb_exit.

(** Reading [self.timer] to call a method on it. *)
Definition get_timer : M nat :=
  fun w =>
    match timer (self w) with
    | Some id => (Ok id, w)
    | None => (Raise AttributeError, w)
    end.

(** Reading [self.temp_dir] to call a method on it. *)
Definition get_temp_dir : M path :=
  fun w =>
    match temp_dir (self w) with
    | Some d => (Ok d, w)
    | None => (Raise AttributeError, w)
    end.

(** [Path.iterdir]: the listing is taken when the loop starts. *)
Definition iterdir (d : path) : M (list path) :=
  names <- os.listdir d ;;
  ret (map (fun n => d ++ [n]) names).

Definition start_periodic_check : M unit :=
  ci <- gets (fun w => check_interval (self w)) ;;
  t <- threading.new_Timer ci cb_remove_old_files ;;
  modify (set_self (set_timer (Some t))) ;;
  id <- get_timer ;;
  threading.start id.

Definition stop_periodic_check : M unit :=
  id <- get_timer ;;
  threading.cancel id ;;
  modify (set_self (set_timer None)).

(** The body of the loop of [remove_old_files]. *)
Definition remove_old_files_body (file_path : path) : M unit :=
  now <- time.time ;;
  st <- os.stat file_path ;;
  timeout <- gets (fun w => remove_timeout (self w)) ;;
  if now - st_mtime st >? timeout then
    os.unlink file_path ;;
    logger.info ("Removed old file: " +:+ fspath file_path)
  else ret tt.

(** The [for] loop of [remove_old_files], lines 44 to 47. *)
Definition remove_old_files_loop : M unit :=
  d <- get_temp_dir ;;
  files <- iterdir d ;;
  for_each remove_old_files_body files.

Definition remove_old_files : M unit :=
  remove_old_files_loop ;;
  start_periodic_check.

(** The body of the loop of [remove_temp_dir]. *)
Definition remove_temp_dir_body (file_path : path) : M unit :=
  os.unlink file_path ;;
  logger.debug ("Removed file: " +:+ fspath file_path).

Definition remove_temp_dir : M unit :=
  d <- get_temp_dir ;;
  files <- iterdir d ;;
  for_each remove_temp_dir_body files ;;
  d1 <- get_temp_dir ;;
  os.rmdir d1 ;;
  d2 <- gets (fun w => temp_dir (self w)) ;;
  logger.info ("Temporary directory " +:+
               match d2 with Some p => fspath p | None => "None" end +:+
               " deleted") ;;
  modify (set_self (set_temp_dir None)).

Definition exit : M unit :=
  t <- gets (fun w => timer (self w)) ;;
  (match t with Some _ => stop_periodic_check | None => ret tt end) ;;
  d <- gets (fun w => temp_dir (self w)) ;;
  match d with Some _ => remove_temp_dir | None => ret tt end.

Definition enter : M unit :=
  d <- tempfile.mkdtemp "py_temp_manager-" ;;
  modify (set_self (set_temp_dir (Some d))) ;;
  logger.info ("Temporary directory created at " +:+ fspath d) ;;
  start_periodic_check.

(** [__enter__] returns [self], the one manager of the world. *)
Definition __enter__ : M unit := enter.

(** [__exit__] returns [None], which is false: an exception that left the
    block is not suppressed. *)
Definition __exit__ (exc : option exn) : M bool :=
  exit ;;
  ret false.

Definition request_temp_file (prefix suffix : option string) : M string :=
  d <- gets (fun w => temp_dir (self w)) ;;
  tempfile.NamedTemporaryFile d prefix suffix.

(** ** What the runtime does with the manager *)

Definition call (cb : callback) : M unit :=
  match cb with
  | cb_remove_old_files => remove_old_files
  | cb_exit => exit
  end.

(** [Timer.run] once the interval has elapsed: the function is called unless
    the timer was cancelled; an exception ends the thread there. *)
Definition Timer_run (id : nat) : M unit :=
  fun w =>
    match timers w !! id with
    | Some t =>
        match status t with
        | Waiting =>
            (modify (set_timers (alter (threading.set_status Running) id)) ;;
             call (function t) ;;
             modify (set_timers (alter (threading.set_status Done) id))) w
        | _ => (Ok tt, w)
        end
    | None => (Ok tt, w)
    end.

(** [with mgr as temp_manager: body]. The block either falls off its end
    ([Ok None]), leaves through [return v] ([Ok (Some v)]) or raises. *)
Definition with_statement {V} (body : M (option V)) : M (option V) :=
  __enter__ ;;
  fun w =>
    match body w with
    | (Ok r, w') => (__exit__ None ;; ret r) w'
    | (Raise e, w') =>
        (suppress <- __exit__ (Some e) ;;
         if suppress : bool then ret None else raise e) w'
    end.

(** Teardown arriving while a sweep is in flight: the timer thread has left
    the loop of [remove_old_files] (line 47), the main thread runs [exit()],
    then the timer thread resumes at line 48. *)
Definition exit_during_remove_old_files : M unit :=
  remove_old_files_loop ;;
  exit ;;
  start_periodic_check.

(** ** Predicates on worlds *)

Definition is_dir (m : gmap path inode) (p : path) : bool :=
  match m !! p with
  | Some i => bool_decide (st_mode i = S_IFDIR)
  | None => false
  end.

Definition is_file (m : gmap path inode) (p : path) : bool :=
  match m !! p with
  | Some i => bool_decide (st_mode i = S_IFREG)
  | None => false
  end.

(** Every entry directly inside [d] is a regular file: what a scratch
    directory holds when only [request_temp_file] adds entries to it. *)
Definition only_files (d : path) (m : gmap path inode) : bool :=
  forallb (fun n => is_file m (d ++ [n])) (children d m).

(** What the clock shows in [w]. *)
Definition now (w : world) : Z := clock w (ticks w).

(** A clock that never runs backwards. *)
Definition monotone (c : nat -> Z) : Prop :=
  forall i j : nat, (i <= j)%nat -> c i <= c j.

(** The file system once the entries [names] of [d] are unlinked, in order. *)
Definition unlink_all (d : path) (names : list string)
    (m : gmap path inode) : gmap path inode :=
  foldl (fun m' n => delete (d ++ [n]) m') m names.

(** The records that the loop of [remove_temp_dir] emits for [names]. *)
Definition removed_file_records (d : path) (names : list string)
    : list (level * string) :=
  map (fun n => (DEBUG, "Removed file: " +:+ fspath (d ++ [n]))) names.

Definition deleted_record (d : path) : level * string :=
  (INFO, "Temporary directory " +:+ fspath d +:+ " deleted").

(** What [Timer.cancel] does to a timer object. *)
Definition cancelled (t : Timer) : Timer :=
  match status t with
  | Initial | Waiting => threading.set_status Cancelled t
  | _ => t
  end.

(** The world once [remove_temp_dir] has emptied and removed [d]. *)
Definition without_temp_dir (d : path) (w : world) : world :=
  set_self (set_temp_dir None)
    (set_log (fun l => l ++ removed_file_records d (children d (fs w))
                         ++ [deleted_record d])
       (set_fs (fun m => delete d (unlink_all d (children d m) m)) w)).

(** The world once [stop_periodic_check] has cancelled timer [id]. *)
Definition without_timer (id : nat) (w : world) : world :=
  set_self (set_timer None) (set_timers (alter cancelled id) w).

(** The world once [exit] is past its first [if]. *)
Definition stopped (w : world) : world :=
  match timer (self w) with
  | Some id => without_timer id w
  | None => w
  end.

(** ** Concrete worlds *)

Definition dir_inode (t : Z) : inode :=
  {| st_mode := S_IFDIR; st_mtime := t; st_size := 0 |}.

Definition file_inode (t : Z) : inode :=
  {| st_mode := S_IFREG; st_mtime := t; st_size := 0 |}.

Definition state_after {A} (m : M A) (w : world) : world := (m w).2.

Definition result_of {A} (m : M A) (w : world) : outcome A := (m w).1.

(** A process about to run [main.py]: [/] and [/tmp] exist, the clock shows
    1000 and advances by one between readings, the name source draws
    0, 1, 2, ... *)
Definition boot : world :=
  {| self := {| check_interval := 0; remove_timeout := 0;
                timer := None; temp_dir := None |};
     fs := {[ [] := dir_inode 0; ["tmp"] := dir_inode 0 ]};
     timers := []; exit_hooks := []; log := [];
     clock := fun n => 1000 + Z.of_nat n; ticks := 0%nat;
     rand := fun n => n; draws := 0%nat;
     tempdir := ["tmp"]; TMP_MAX := 1000%nat |}.

(** [main.py] up to its second capture: the manager is constructed and
    entered, an image and a video file are requested. *)
Definition two_captures : M unit :=
  __init__ None None ;;
  __enter__ ;;
  request_temp_file None (Some ".jpg") ;;
  request_temp_file None (Some ".mp4") ;;
  ret tt.

Definition busy : world := state_after two_captures boot.

Definition busy_dir : path := ["tmp"; "py_temp_manager-aaaaaaaa"].

(** The entries among [names] that a sweep unlinks when it starts at reading
    [t] of clock [c] with retention [R]: entry number [k] is examined at
    reading [t + k]. *)
Fixpoint reaped (R : Z) (c : nat -> Z) (t : nat) (d : path)
    (m : gmap path inode) (names : list string) : list string :=
  match names with
  | [] => []
  | n :: names' =>
      match m !! (d ++ [n]) with
      | Some i =>
          if c t - st_mtime i >? R
          then n :: reaped R c (S t) d m names'
          else reaped R c (S t) d m names'
      | None => reaped R c (S t) d m names'
      end
  end.

(** The records that the loop of [remove_old_files] emits for [names]. *)
Definition old_file_records (d : path) (names : list string)
    : list (level * string) :=
  map (fun n => (INFO, "Removed old file: " +:+ fspath (d ++ [n]))) names.

(** The world once the loop of [remove_old_files] has gone through [names]. *)
Definition swept (d : path) (names : list string) (w : world) : world :=
  let gone :=
    reaped (remove_timeout (self w)) (clock w) (ticks w) d (fs w) names in
  set_log (fun l => l ++ old_file_records d gone)
    (set_fs (unlink_all d gone)
       (set_ticks (fun t => (t + length names)%nat) w)).

(** The timer that [start_periodic_check] arms. *)
Definition next_sweep (w : world) : Timer :=
  {| interval := check_interval (self w);
     function := cb_remove_old_files;
     status := Waiting |}.

(** The world once [start_periodic_check] has armed a new timer. *)
Definition rearmed (w : world) : world :=
  set_self (set_timer (Some (length (timers w))))
    (set_timers (fun l => l ++ [next_sweep w]) w).

(** Time passing: [n] further readings of the clock are taken elsewhere. *)
Definition sleep (n : nat) : M unit :=
  modify (set_ticks (fun t => (t + n)%nat)).

(** The manager of [main.py] constructed and not entered. *)
Definition constructed : world := state_after (__init__ None None) boot.

(** [busy] once whatever writes the captures has made a subdirectory in the
    scratch directory, and more than ten minutes have passed. *)
Definition stuck : world :=
  state_after (os.mkdir busy_dir "frames" ;; sleep 700) busy.

(** [busy] once a directory was made in the scratch directory for the frames
    of the clip, and more than ten minutes have passed; the listing yields it
    after the image and before the clip. *)
Definition stuck_midway : world :=
  state_after (os.mkdir busy_dir "tmpcaaaaaaa.d" ;; sleep 700) busy.

(** [busy] when its timer has fired: the sweep is running. *)
Definition sweeping : world :=
  state_after
    (modify (set_timers (alter (threading.set_status Running) 0%nat))) busy.

(** A retention of 600 at time 1000: two files whose modification time was
    set to [1000 - 600 + 1], and a clock that advances by 2 from one reading
    to the next. *)
Definition borderline : world :=
  {| self := {| check_interval := 60; remove_timeout := 600;
                timer := Some 0%nat; temp_dir := Some ["tmp"; "scratch"] |};
     fs := {[ [] := dir_inode 0; ["tmp"] := dir_inode 0;
              ["tmp"; "scratch"] := dir_inode 0;
              ["tmp"; "scratch"; "a.jpg"] := file_inode 401;
              ["tmp"; "scratch"; "b.jpg"] := file_inode 401 ]};
     timers := [{| interval := 60; function := cb_remove_old_files;
                   status := Running |}];
     exit_hooks := [cb_exit]; log := [];
     clock := fun n => 1000 + 2 * Z.of_nat n; ticks := 0%nat;
     rand := fun n => n; draws := 0%nat;
     tempdir := ["tmp"]; TMP_MAX := 1000%nat |}.

(** ** Claims as the specification words them *)

(** C2 as stated: a sweep deletes a file exactly when its age, counted from
    the invocation of the sweep, exceeds the retention. *)
Definition reaps_by_age_at_invocation (w : world) : Prop :=
  forall d n i,
    temp_dir (self w) = Some d ->
    fs w !! (d ++ [n]) = Some i ->
    st_mode i = S_IFREG ->
    fs (state_after remove_old_files w) !! (d ++ [n]) = None
    <-> now w - st_mtime i > remove_timeout (self w).

(** C7 as stated: a pass is never aborted by a deletion that fails. *)
Definition tolerates_deletion_failure (w : world) : Prop :=
  (exists w', remove_old_files w = (Ok tt, w'))
  /\ (exists w', exit w = (Ok tt, w')).

(** C8 as stated, its last part: no sweep is pending. *)
Definition no_sweep_pending (w : world) : Prop :=
  forall t, t ∈ timers w -> status t <> Waiting.

(** C9 as stated: no registered exit hook lets an error out. *)
Definition exit_hooks_never_raise (w : world) : Prop :=
  forall cb, cb ∈ exit_hooks w -> exists w', call cb w = (Ok tt, w').

(** C3 as stated: a request on an inactive manager is refused, and creates
    nothing. *)
Definition refuses_when_inactive (w : world)
    (prefix suffix : option string) : Prop :=
  temp_dir (self w) = None ->
  exists e, request_temp_file prefix suffix w = (Raise e, w).


(** ** Issuing files *)

(** The [k]-th file name that the allocator will try in [w]. *)
Definition candidate (pre suf : string) (w : world) (k : nat) : string :=
  pre +:+ tempfile.choices 8 (rand w (draws w + k)%nat) +:+ suf.

(** The world once the allocator has drawn [k] names and created the empty
    file [f] in [d]. *)
Definition created (d : path) (f : string) (k : nat) (w : world) : world :=
  set_fs <[d ++ [f] := file_inode (now w)]>
    (set_ticks S (set_draws (fun x => (x + k)%nat) w)).


(** A prefix or suffix that stays within one path component. *)
Definition plain (s : option string) : bool :=
  negb (has_sep (default EmptyString s)).



(** A prefix and a suffix of which every candidate name is a valid file
    name: neither holds a NUL byte, and with the eight random characters
    between them they are no longer than [NAME_MAX]. *)
Definition fits (prefix suffix : option string) : bool :=
  let pre := default "tmp" prefix in
  let suf := default EmptyString suffix in
  negb (has_nul pre) && negb (has_nul suf)
  && (String.length pre + 8 + String.length suf <=? NAME_MAX)%nat.

(** A prefix of 248 bytes: with the eight random characters, one byte more
    than a file name may hold. *)
Definition long_prefix : string :=
  String.string_of_list_ascii (replicate 248 "a"%char).

(** A capture that obtains its output file and then fails. *)
Definition failing_capture : M (option unit) :=
  request_temp_file None (Some ".mp4") ;;
  raise FileNotFoundError.

(** ** Activation *)

(** The world once [mkdtemp] has drawn [k] names and made the directory [f]
    in [d]. *)
Definition made (d : path) (f : string) (k : nat) (w : world) : world :=
  set_fs <[d ++ [f] := dir_inode (now w)]>
    (set_ticks S (set_draws (fun x => (x + k)%nat) w)).

(** The world once [enter] has made [f] its scratch directory. *)
Definition entered (f : string) (k : nat) (w : world) : world :=
  rearmed
    (set_log (fun l => l ++ [(INFO, "Temporary directory created at " +:+
                                    fspath (tempdir w ++ [f]))])
       (set_self (set_temp_dir (Some (tempdir w ++ [f])))
          (made (tempdir w) f k w))).

(** Every entry other than the root lies in a directory. *)
Definition well_formed (m : gmap path inode) : bool :=
  forallb (fun e : path * inode =>
             match e.1 with
             | [] => true
             | _ :: _ => is_dir m (dirname e.1)
             end) (map_to_list m).

(** [constructed] on a machine whose temporary directory is missing. *)
Definition no_tmp : world := set_fs (delete ["tmp"]) constructed.

(** [enter] followed at once by [exit]. *)
Definition enter_then_exit : M unit := enter ;; exit.

(** ** What the passes may remove *)

(** From [m] to [m'] nothing changed but regular files directly inside [d]
    that were removed, each satisfying [Q] at its position in the pass. *)
Definition removed_only (Q : nat -> inode -> Prop) (d : path)
    (m m' : gmap path inode) : Prop :=
  forall p,
    m' !! p = m !! p
    \/ (m' !! p = None
        /\ exists n i k,
             p = d ++ [n] /\ m !! p = Some i /\ st_mode i = S_IFREG /\ Q k i).

(** The same for a pass over the listing [names]: every file removed is an
    entry of the listing and satisfies [Q] at its position in it. *)
Definition removed_listed (Q : nat -> inode -> Prop) (d : path)
    (names : list string) (m m' : gmap path inode) : Prop :=
  forall p,
    m' !! p = m !! p
    \/ (m' !! p = None
        /\ exists n i k,
             names !! k = Some n
             /\ p = d ++ [n] /\ m !! p = Some i /\ st_mode i = S_IFREG /\ Q k i).


(** ** The capture callbacks of [launch_app] ([main.py]) *)

(** How a callback of the application ends: with its value, with an
    exception of the manager's world, with the [KeyError] of a dictionary
    lookup, or with the [Exception] of a capture. *)
Inductive app_outcome (A : Type) :=
  | Returned (a : A)
  | ManagerError (e : exn)
  | KeyError (key : string)
  | CaptureError (msg : string).
Arguments Returned {A} a.
Arguments ManagerError {A} e.
Arguments KeyError {A} key.
Arguments CaptureError {A} msg.

Section capture_callbacks.

(** The cameras, [capture_image] and [capture_video] drive the capture
    library; the callbacks only pass them their arguments. *)
Variable Camera : Type.
Variable capture_image : string -> Camera -> world -> app_outcome string * world.
Variable capture_video :
  string -> Camera -> Z -> world -> app_outcome string * world.

(** [camera_dic], as [get_cameras] returned it. *)
Variable camera_dic : gmap string Camera.

(** [capture_image(temp_manager.request_temp_file(suffix=".jpg"),
    camera_dic[camera_key])]: the arguments are evaluated from left to
    right, then the function is called. *)
Definition capture_image_api (camera_key : string)
    : world -> app_outcome string * world :=
  fun w =>
    match request_temp_file None (Some ".jpg") w with
    | (Raise e, w1) => (ManagerError e, w1)
    | (Ok output_file, w1) =>
        match camera_dic !! camera_key with
        | None => (KeyError camera_key, w1)
        | Some camera => capture_image output_file camera w1
        end
    end.

(** [capture_video(temp_manager.request_temp_file(suffix=".mp4"),
    camera_dic[camera_key], video_length)]. *)
Definition capture_video_api (camera_key : string) (video_length : Z)
    : world -> app_outcome string * world :=
  fun w =>
    match request_temp_file None (Some ".mp4") w with
    | (Raise e, w1) => (ManagerError e, w1)
    | (Ok output_file, w1) =>
        match camera_dic !! camera_key with
        | None => (KeyError camera_key, w1)
        | Some camera => capture_video output_file camera video_length w1
        end
    end.

End capture_callbacks.

(** ** A session *)

(** The manager is active on [d], the scratch directory holds regular files
    only, and the manager's timer is the one waiting timer, set to sweep. *)
Definition healthy (d : path) (w : world) : Prop :=
  temp_dir (self w) = Some d
  /\ is_dir (fs w) d = true
  /\ only_files d (fs w) = true
  /\ exists id t,
       timer (self w) = Some id
       /\ timers w !! id = Some t
       /\ status t = Waiting
       /\ function t = cb_remove_old_files
       /\ forall j t', timers w !! j = Some t' -> status t' = Waiting -> j = id.

(** What happens to the manager while the application is served: a capture
    callback requests a file, or the manager's timer fires. *)
Inductive event :=
  | Request (prefix suffix : option string)
  | TimerFires.

(** The state after an event; an exception ends the callback or the timer
    thread, not the application. *)
Definition handle (w : world) (e : event) : world :=
  match e with
  | Request prefix suffix => state_after (request_temp_file prefix suffix) w
  | TimerFires =>
      match timer (self w) with
      | Some id => state_after (Timer_run id) w
      | None => w
      end
  end.

Definition session (events : list event) (w : world) : world :=
  foldl handle w events.

Definition plain_event (e : event) : bool :=
  match e with
  | Request prefix suffix => plain prefix && plain suffix
  | TimerFires => true
  end.

(** * Properties *)

(** ** Directory listings *)

Lemma child_name_Some (d p : path) (n : string) :
  child_name d p = Some n <-> p = d ++ [n].
Proof.
  unfold child_name. split.
  - case_decide as Ht; [|done].
    destruct (drop (length d) p) as [|x [|y l]] eqn:Hd; try done.
    intros [= ->]. by rewrite <- (take_drop (length d) p), Ht, Hd.
  - intros ->. rewrite take_app_length, drop_app_length.
    by rewrite decide_True.
Qed.

Lemma elem_of_children (d : path) (m : gmap path inode) (n : string) :
  n ∈ children d m <-> is_Some (m !! (d ++ [n])).
Proof.
  unfold children. rewrite list_elem_of_omap. split.
  - intros ([p i] & Hin & Hc). apply elem_of_map_to_list in Hin.
    apply child_name_Some in Hc. simpl in Hc. subst p. eauto.
  - intros [i Hi]. exists (d ++ [n], i). split.
    + by apply elem_of_map_to_list.
    + by apply child_name_Some.
Qed.

Lemma NoDup_omap_fst {A B C} (f : A -> option C) (l : list (A * B)) :
  NoDup l.*1 ->
  (forall a a' c, f a = Some c -> f a' = Some c -> a = a') ->
  NoDup (omap (fun e => f e.1) l).
Proof.
  intros Hnd Hinj. induction l as [|[a b] l IH]; simpl; [constructor|].
  apply NoDup_cons in Hnd as [Hnotin Hnd].
  destruct (f a) as [c|] eqn:Hfa; [|by apply IH].
  apply NoDup_cons. split; [|by apply IH].
  rewrite list_elem_of_omap. intros ([a' b'] & Hin & Hfa').
  simpl in Hfa'. assert (a = a') as <- by eauto.
  apply Hnotin. apply list_elem_of_fmap. by exists (a, b').
Qed.

Lemma NoDup_children (d : path) (m : gmap path inode) : NoDup (children d m).
Proof.
  apply NoDup_omap_fst.
  - apply NoDup_fst_map_to_list.
  - intros p p' n Hp Hp'. apply child_name_Some in Hp, Hp'. congruence.
Qed.

Lemma children_nil (d : path) (m : gmap path inode) :
  (forall n, m !! (d ++ [n]) = None) -> children d m = [].
Proof.
  intros H. destruct (children d m) as [|n l] eqn:E; [done|].
  assert (n ∈ children d m) as Hin by (rewrite E; left).
  apply elem_of_children in Hin as [i Hi]. by rewrite H in Hi.
Qed.

Lemma only_files_spec (d : path) (m : gmap path inode) :
  only_files d m = true <->
  forall n i, m !! (d ++ [n]) = Some i -> st_mode i = S_IFREG.
Proof.
  unfold only_files. rewrite forallb_forall. split.
  - intros H n i Hi.
    assert (is_file m (d ++ [n]) = true) as Hf.
    { apply H. apply list_elem_of_In, elem_of_children. eauto. }
    unfold is_file in Hf. rewrite Hi in Hf. by apply bool_decide_eq_true in Hf.
  - intros H n Hin. apply list_elem_of_In, elem_of_children in Hin as [i Hi].
    unfold is_file. rewrite Hi. apply bool_decide_eq_true. eauto.
Qed.

(** ** The monad *)

(** Reduction of the field accessors only. *)
Ltac fields :=
  cbn [self fs timers exit_hooks log clock ticks rand draws tempdir TMP_MAX
       set_self set_fs set_timers set_exit_hooks set_log set_ticks set_draws
       check_interval remove_timeout timer temp_dir set_timer set_temp_dir] in *.

Lemma bind_Ok {A B} (m : M A) (k : A -> M B) (w w' : world) (a : A) :
  m w = (Ok a, w') -> bind m k w = k a w'.
Proof. unfold bind. by intros ->. Qed.

Lemma bind_Raise {A B} (m : M A) (k : A -> M B) (w w' : world) (e : exn) :
  m w = (Raise e, w') -> bind m k w = (Raise e, w').
Proof. unfold bind. by intros ->. Qed.

Lemma for_each_app {A} (body : A -> M unit) (l1 l2 : list A) (w : world) :
  for_each body (l1 ++ l2) w = (for_each body l1 ;; for_each body l2) w.
Proof.
  revert w. induction l1 as [|x l1 IH]; intros w; simpl; [done|].
  unfold bind in *. destruct (body x w) as [[[]|e] w1]; [|done].
  apply IH.
Qed.

Lemma is_file_Some (m : gmap path inode) (p : path) :
  is_file m p = true <-> exists i, m !! p = Some i /\ st_mode i = S_IFREG.
Proof.
  unfold is_file. split.
  - destruct (m !! p) as [i|]; [|done].
    intros H%bool_decide_eq_true. eauto.
  - intros (i & -> & Hi). by apply bool_decide_eq_true.
Qed.

Lemma is_dir_Some (m : gmap path inode) (p : path) :
  is_dir m p = true <-> exists i, m !! p = Some i /\ st_mode i = S_IFDIR.
Proof.
  unfold is_dir. split.
  - destruct (m !! p) as [i|]; [|done].
    intros H%bool_decide_eq_true. eauto.
  - intros (i & -> & Hi). by apply bool_decide_eq_true.
Qed.

(** ** Unlinking the entries of a directory *)

Lemma child_ne_parent (d : path) (n : string) : d ++ [n] <> d.
Proof.
  intros H. apply (f_equal length) in H. rewrite length_app in H.
  simpl in H. lia.
Qed.

Lemma child_inj (d : path) (n n' : string) : d ++ [n] = d ++ [n'] -> n = n'.
Proof. intros H. apply app_inv_head in H. congruence. Qed.

Lemma lookup_unlink_all_ne (d : path) (names : list string)
    (m : gmap path inode) (p : path) :
  (forall n, n ∈ names -> p <> d ++ [n]) ->
  unlink_all d names m !! p = m !! p.
Proof.
  unfold unlink_all. revert m.
  induction names as [|n names IH]; intros m H; simpl; [done|].
  rewrite IH.
  - apply lookup_delete_ne. intros Heq. by apply (H n); [left|].
  - intros n' Hn'. apply H. by right.
Qed.

Lemma lookup_unlink_all_elem (d : path) (names : list string)
    (m : gmap path inode) (n : string) :
  n ∈ names -> unlink_all d names m !! (d ++ [n]) = None.
Proof.
  unfold unlink_all. revert m.
  induction names as [|n' names IH]; intros m Hin; simpl.
  - by apply elem_of_nil in Hin.
  - destruct (decide (n ∈ names)) as [Hn|Hn]; [by apply IH|].
    apply elem_of_cons in Hin as [->|Hin]; [|done].
    fold (unlink_all d names (delete (d ++ [n']) m)).
    rewrite lookup_unlink_all_ne.
    + apply lookup_delete_eq.
    + intros n0 Hn0 Heq. apply child_inj in Heq. by subst.
Qed.

Lemma children_unlink_all (d : path) (m : gmap path inode) :
  children d (unlink_all d (children d m) m) = [].
Proof.
  apply children_nil. intros n.
  destruct (decide (n ∈ children d m)) as [Hn|Hn].
  - by apply lookup_unlink_all_elem.
  - rewrite lookup_unlink_all_ne.
    + rewrite elem_of_children in Hn. by apply eq_None_not_Some.
    + intros n' Hn' Heq. apply child_inj in Heq. by subst.
Qed.

(** The loop of [remove_temp_dir] over regular files: every one is unlinked
    and reported, nothing else changes. *)
Lemma remove_temp_dir_loop_ok (d : path) (names : list string) (w : world) :
  NoDup names ->
  (forall n, n ∈ names -> is_file (fs w) (d ++ [n]) = true) ->
  for_each remove_temp_dir_body (map (fun n => d ++ [n]) names) w =
    (Ok tt,
     set_log (fun l => l ++ removed_file_records d names)
       (set_fs (unlink_all d names) w)).
Proof.
  revert w. induction names as [|n names IH]; intros w Hnd Hall.
  - unfold set_log, set_fs, removed_file_records.
    destruct w; cbn [for_each map unlink_all foldl]; fields.
    by rewrite app_nil_r.
  - apply NoDup_cons in Hnd as [Hn Hnd].
    destruct (proj1 (is_file_Some _ _) (Hall n ltac:(left))) as (i & Hi & Hreg).
    simpl. unfold bind at 1. unfold remove_temp_dir_body at 1.
    unfold bind at 1. unfold os.unlink. rewrite Hi, Hreg.
    unfold logger.debug, modify. rewrite IH; [|done|].
    + f_equal. unfold set_log, set_fs, removed_file_records. fields.
      cbn [map unlink_all foldl]. by rewrite <- app_assoc.
    + intros n' Hn'. simpl. unfold is_file.
      rewrite lookup_delete_ne.
      * apply Hall. by right.
      * intros Heq. apply child_inj in Heq. by subst.
Qed.

(** ** Teardown *)

Lemma remove_temp_dir_ok (d : path) (w : world) :
  temp_dir (self w) = Some d ->
  is_dir (fs w) d = true ->
  only_files d (fs w) = true ->
  remove_temp_dir w = (Ok tt, without_temp_dir d w).
Proof.
  intros Hd Hdir Hfiles.
  apply is_dir_Some in Hdir as (i & Hi & Hmode).
  unfold remove_temp_dir.
  rewrite (bind_Ok _ _ w w d) by (unfold get_temp_dir; by rewrite Hd).
  rewrite (bind_Ok _ _ w w (map (fun n => d ++ [n]) (children d (fs w)))).
  2:{ unfold iterdir, bind, os.listdir, ret. by rewrite Hi, Hmode. }
  erewrite bind_Ok.
  2:{ apply remove_temp_dir_loop_ok; [apply NoDup_children|].
      intros n Hn. apply elem_of_children in Hn as [j Hj].
      apply is_file_Some. exists j. split; [done|].
      by apply (proj1 (only_files_spec d (fs w)) Hfiles n). }
  erewrite bind_Ok by (unfold get_temp_dir; simpl; by rewrite Hd).
  erewrite bind_Ok.
  2:{ unfold os.rmdir. simpl.
      rewrite lookup_unlink_all_ne by (intros n _ Heq; symmetry in Heq;
                                        by apply child_ne_parent in Heq).
      rewrite Hi, Hmode. by rewrite children_unlink_all. }
  unfold bind, gets, logger.info, modify. simpl. rewrite Hd.
  f_equal. unfold without_temp_dir, set_self, set_log, set_fs, deleted_record.
  fields. by rewrite <- app_assoc.
Qed.

Lemma stop_periodic_check_ok (id : nat) (w : world) :
  timer (self w) = Some id ->
  stop_periodic_check w = (Ok tt, without_timer id w).
Proof.
  intros Ht. unfold stop_periodic_check, bind, get_timer. by rewrite Ht.
Qed.

Lemma exit_inactive (w : world) :
  timer (self w) = None -> temp_dir (self w) = None -> exit w = (Ok tt, w).
Proof. intros Ht Hd. unfold exit, bind, gets, ret. by rewrite Ht, Hd. Qed.

Lemma stopped_fields (w : world) :
  fs (stopped w) = fs w
  /\ temp_dir (self (stopped w)) = temp_dir (self w)
  /\ timer (self (stopped w)) = None
  /\ log (stopped w) = log w.
Proof. unfold stopped. by destruct (timer (self w)) eqn:Ht. Qed.

Lemma exit_stops_first (w : world) :
  (match timer (self w) with
   | Some _ => stop_periodic_check
   | None => ret tt
   end) w = (Ok tt, stopped w).
Proof.
  unfold stopped. destruct (timer (self w)) eqn:Ht; [|done].
  by apply stop_periodic_check_ok.
Qed.

Lemma exit_ok (d : path) (w : world) :
  temp_dir (self w) = Some d ->
  is_dir (fs w) d = true ->
  only_files d (fs w) = true ->
  exit w = (Ok tt, without_temp_dir d (stopped w)).
Proof.
  intros Hd Hdir Hfiles.
  destruct (stopped_fields w) as (Hfs1 & Hd1 & Ht1 & _). rewrite Hd in Hd1.
  unfold exit. rewrite (bind_Ok _ _ w w (timer (self w))) by done.
  rewrite (bind_Ok _ _ w (stopped w) tt) by apply exit_stops_first.
  rewrite (bind_Ok _ _ _ (stopped w) (Some d)) by (unfold gets; by rewrite Hd1).
  apply remove_temp_dir_ok; by rewrite ?Hfs1.
Qed.

Lemma lookup_unlink_all_children (d : path) (m : gmap path inode) (n : string) :
  unlink_all d (children d m) m !! (d ++ [n]) = None.
Proof.
  destruct (decide (n ∈ children d m)) as [Hn|Hn].
  - by apply lookup_unlink_all_elem.
  - rewrite lookup_unlink_all_ne.
    + rewrite elem_of_children in Hn. by apply eq_None_not_Some.
    + intros n' Hn' Heq. apply child_inj in Heq. by subst.
Qed.

Lemma lookup_alter_cancelled_not_waiting (id : nat) (l : list Timer) (t : Timer) :
  alter cancelled id l !! id = Some t -> status t <> Waiting.
Proof.
  rewrite list_lookup_alter_eq. destruct (l !! id) as [t0|]; [|done].
  intros [= <-]. unfold cancelled. by destruct t0 as [? ? []].
Qed.

(** C1. On an activated manager whose scratch directory holds regular files
    (any number, of any age), [exit] returns normally, having cancelled the
    manager's timer, unlinked every entry of the directory, removed the
    directory and reset [timer] and [temp_dir] to [None], in that order as the
    log shows; nothing else in the file system is touched. *)
Theorem teardown_removes_scratch_directory (w : world) (d : path) :
  temp_dir (self w) = Some d ->
  is_dir (fs w) d = true ->
  only_files d (fs w) = true ->
  exists w',
    exit w = (Ok tt, w')
    /\ timers w' = match timer (self w) with
                   | Some id => alter cancelled id (timers w)
                   | None => timers w
                   end
    /\ (forall id t, timer (self w) = Some id ->
                     timers w' !! id = Some t -> status t <> Waiting)
    /\ (forall n, fs w' !! (d ++ [n]) = None)
    /\ fs w' !! d = None
    /\ (forall p, p <> d -> child_name d p = None -> fs w' !! p = fs w !! p)
    /\ timer (self w') = None
    /\ temp_dir (self w') = None
    /\ log w' = log w ++ removed_file_records d (children d (fs w))
                      ++ [deleted_record d].
Proof.
  intros Hd Hdir Hfiles. eexists. split; [by apply (exit_ok d)|].
  assert (forall n, delete d (unlink_all d (children d (fs w)) (fs w))
                      !! (d ++ [n]) = None) as Hchildren.
  { intros n. rewrite lookup_delete_ne by (symmetry; apply child_ne_parent).
    apply lookup_unlink_all_children. }
  assert (forall p, p <> d -> child_name d p = None ->
            delete d (unlink_all d (children d (fs w)) (fs w)) !! p = fs w !! p)
    as Hframe.
  { intros p Hp Hc. rewrite lookup_delete_ne by done.
    apply lookup_unlink_all_ne. intros n _ ->.
    by rewrite (proj2 (child_name_Some d (d ++ [n]) n)) in Hc. }
  unfold stopped.
  destruct (timer (self w)) as [id|] eqn:Ht; simpl; split_and!;
    try done; try apply lookup_delete_eq.
  intros id' t [= <-]. apply lookup_alter_cancelled_not_waiting.
Qed.

Lemma teardown_removes_scratch_directory_witness :
  exists w', exit busy = (Ok tt, w')
             /\ fs w' !! busy_dir = None
             /\ temp_dir (self w') = None.
Proof.
  destruct (teardown_removes_scratch_directory busy busy_dir)
    as (w' & Hexit & _ & _ & _ & Hgone & _ & _ & Hnone & _);
    [vm_compute; reflexivity ..|].
  exists w'. by split_and!.
Defined.

(** ** Calling [exit] on an inactive manager *)

Lemma for_each_self {A} (body : A -> M unit) (l : list A) (w : world) :
  (forall x w0, self (body x w0).2 = self w0) ->
  self (for_each body l w).2 = self w.
Proof.
  intros Hbody. revert w. induction l as [|x l IH]; intros w; simpl; [done|].
  unfold bind. specialize (Hbody x w).
  destruct (body x w) as [[[]|e] w1]; simpl in *; [|done].
  by rewrite IH.
Qed.

Lemma remove_temp_dir_body_self (p : path) (w : world) :
  self (remove_temp_dir_body p w).2 = self w.
Proof.
  unfold remove_temp_dir_body, bind, os.unlink.
  destruct (fs w !! p) as [[[] ? ?]|]; by simpl.
Qed.

Lemma remove_temp_dir_returns (w w' : world) :
  remove_temp_dir w = (Ok tt, w') -> self w' = set_temp_dir None (self w).
Proof.
  unfold remove_temp_dir, bind at 1. unfold get_temp_dir at 1.
  destruct (temp_dir (self w)) as [d|]; [|done].
  unfold bind at 1. unfold iterdir, bind at 1, os.listdir.
  destruct (fs w !! d) as [[[] ? ?]|]; simpl; try done.
  unfold bind at 1.
  pose proof (for_each_self remove_temp_dir_body
                (map (fun n => d ++ [n]) (children d (fs w))) w
                remove_temp_dir_body_self) as Hself.
  destruct (for_each remove_temp_dir_body _ w) as [[[]|e] w1]; [|done].
  simpl in Hself. unfold bind at 1. unfold get_temp_dir.
  destruct (temp_dir (self w1)) as [d1|]; [|done].
  unfold bind at 1. unfold os.rmdir.
  destruct (fs w1 !! d1) as [[[] ? ?]|]; simpl; try done.
  destruct (children d1 (fs w1)); [|done].
  unfold bind, gets, logger.info, modify. simpl.
  intros [= <-]. simpl. by rewrite Hself.
Qed.

Lemma exit_returns_inactive (w w' : world) :
  exit w = (Ok tt, w') ->
  timer (self w') = None /\ temp_dir (self w') = None.
Proof.
  unfold exit. rewrite (bind_Ok _ _ w w (timer (self w))) by done.
  set (w1 := match timer (self w) with
             | Some id => without_timer id w
             | None => w
             end).
  assert ((match timer (self w) with
           | Some _ => stop_periodic_check
           | None => ret tt
           end) w = (Ok tt, w1)) as Hstop.
  { subst w1. destruct (timer (self w)) eqn:Ht; [|done].
    by apply stop_periodic_check_ok. }
  assert (timer (self w1) = None) as Ht1.
  { subst w1. by destruct (timer (self w)) eqn:Ht. }
  rewrite (bind_Ok _ _ w w1 tt) by done.
  rewrite (bind_Ok _ _ w1 w1 (temp_dir (self w1))) by done.
  destruct (temp_dir (self w1)) as [d|] eqn:Hd.
  - intros Hr%remove_temp_dir_returns. rewrite Hr. simpl. by rewrite Ht1.
  - by intros [= <-].
Qed.

(** C5. [exit] has no precondition: on a manager that was constructed and
    never entered it returns normally and changes nothing, and whenever a call
    of [exit] has returned, calling it again returns normally and changes
    nothing. *)
Theorem teardown_is_safe_when_inactive :
  (forall ci rt w,
     exit (state_after (__init__ ci rt) w)
     = (Ok tt, state_after (__init__ ci rt) w))
  /\ (forall w w',
        exit w = (Ok tt, w') -> exit w' = (Ok tt, w')).
Proof.
  split.
  - intros ci rt w. by apply exit_inactive.
  - intros w w' [Ht Hd]%exit_returns_inactive. by apply exit_inactive.
Qed.

Lemma teardown_is_safe_when_inactive_witness :
  exit busy = (Ok tt, state_after exit busy)
  /\ exit (state_after exit busy) = (Ok tt, state_after exit busy).
Proof.
  assert (exit busy = (Ok tt, state_after exit busy)) as H
    by (vm_compute; reflexivity).
  split; [exact H|].
  exact (proj2 teardown_is_safe_when_inactive busy (state_after exit busy) H).
Defined.

(** ** The sweep *)

Lemma reaped_ext (R : Z) (c : nat -> Z) (t : nat) (d : path)
    (m m' : gmap path inode) (names : list string) :
  (forall n, n ∈ names -> m !! (d ++ [n]) = m' !! (d ++ [n])) ->
  reaped R c t d m names = reaped R c t d m' names.
Proof.
  revert t. induction names as [|n names IH]; intros t H; simpl; [done|].
  rewrite <- (H n) by left.
  rewrite (IH (S t)) by (intros n' Hn'; apply H; by right).
  done.
Qed.

Lemma reaped_subset (R : Z) (c : nat -> Z) (t : nat) (d : path)
    (m : gmap path inode) (names : list string) (n : string) :
  n ∈ reaped R c t d m names -> n ∈ names.
Proof.
  revert t. induction names as [|n' names IH]; intros t; simpl; [done|].
  destruct (m !! (d ++ [n'])) as [i|]; [destruct (_ >? _)|];
    rewrite ?elem_of_cons; naive_solver.
Qed.

(** Entry number [k] is reaped exactly when it is older than [R] at reading
    [t + k]. *)
Lemma elem_of_reaped (R : Z) (c : nat -> Z) (t : nat) (d : path)
    (m : gmap path inode) (names : list string) (k : nat) (n : string)
    (i : inode) :
  NoDup names ->
  names !! k = Some n ->
  m !! (d ++ [n]) = Some i ->
  n ∈ reaped R c t d m names <-> c (t + k)%nat - st_mtime i > R.
Proof.
  revert t k. induction names as [|n' names IH]; intros t k Hnd Hk Hi; [done|].
  apply NoDup_cons in Hnd as [Hn' Hnd]. destruct k as [|k]; simpl in *.
  - injection Hk as ->. rewrite Hi, Nat.add_0_r.
    destruct (Z.gtb_spec (c t - st_mtime i) R) as [Hgt|Hle].
    + split; [lia|left].
    + split; [|lia]. intros Hin%reaped_subset. done.
  - assert (n <> n') as Hne.
    { intros ->. apply Hn'. by eapply list_elem_of_lookup_2. }
    replace (t + S k)%nat with (S t + k)%nat by lia.
    rewrite <- (IH (S t) k Hnd Hk Hi).
    destruct (m !! (d ++ [n'])) as [i'|]; [destruct (_ >? _)|];
      rewrite ?elem_of_cons; naive_solver.
Qed.

Lemma remove_old_files_body_file (p : path) (i : inode) (w : world) :
  fs w !! p = Some i ->
  st_mode i = S_IFREG ->
  remove_old_files_body p w =
    (Ok tt,
     if now w - st_mtime i >? remove_timeout (self w)
     then set_log (fun l => l ++ [(INFO, "Removed old file: " +:+ fspath p)])
            (set_fs (delete p) (set_ticks S w))
     else set_ticks S w).
Proof.
  intros Hi Hreg.
  unfold remove_old_files_body, bind, time.time, os.stat, gets, now. simpl.
  rewrite Hi. destruct (_ >? _); [|done].
  unfold os.unlink. simpl. by rewrite Hi, Hreg.
Qed.

(** The loop of [remove_old_files] over regular files. *)
Lemma remove_old_files_loop_ok (d : path) (names : list string) (w : world) :
  NoDup names ->
  (forall n, n ∈ names -> is_file (fs w) (d ++ [n]) = true) ->
  for_each remove_old_files_body (map (fun n => d ++ [n]) names) w =
    (Ok tt, swept d names w).
Proof.
  revert w. induction names as [|n names IH]; intros w Hnd Hall.
  - unfold swept, set_log, set_fs, set_ticks, old_file_records.
    destruct w; cbn [for_each map reaped unlink_all foldl length]; fields.
    by rewrite app_nil_r, Nat.add_0_r.
  - apply NoDup_cons in Hnd as [Hn Hnd].
    destruct (proj1 (is_file_Some _ _) (Hall n ltac:(left))) as (i & Hi & Hreg).
    cbn [for_each map].
    erewrite bind_Ok by by apply remove_old_files_body_file.
    assert (forall m', (forall n', n' ∈ names ->
                           m' !! (d ++ [n']) = fs w !! (d ++ [n'])) ->
              forall R c t, reaped R c t d m' names = reaped R c t d (fs w) names)
      as Hext by (intros; by apply reaped_ext).
    unfold now. destruct (_ >? _) eqn:Hold.
    + rewrite IH; [|done|].
      * f_equal. unfold swept. fields. cbn [reaped]. rewrite Hi, Hold.
        rewrite Hext.
        2:{ intros n' Hn'. apply lookup_delete_ne. intros Heq.
            apply child_inj in Heq. by subst. }
        unfold set_log, set_fs, set_ticks, old_file_records. fields.
        cbn [map unlink_all foldl length].
        rewrite <- app_assoc. cbn [app].
        by rewrite Nat.add_succ_r.
      * intros n' Hn'. fields. unfold is_file. rewrite lookup_delete_ne.
        -- apply Hall. by right.
        -- intros Heq. apply child_inj in Heq. by subst.
    + rewrite IH; [|done|].
      * f_equal. unfold swept. fields. cbn [reaped]. rewrite Hi, Hold.
        unfold set_log, set_fs, set_ticks, old_file_records. fields.
        cbn [length]. by rewrite Nat.add_succ_r.
      * intros n' Hn'. fields. apply Hall. by right.
Qed.

Lemma start_periodic_check_ok (w : world) :
  start_periodic_check w = (Ok tt, rearmed w).
Proof.
  unfold start_periodic_check, bind, gets, threading.new_Timer,
    get_timer, threading.start, modify. simpl. f_equal.
  unfold rearmed, set_self, set_timers, next_sweep. simpl.
  rewrite alter_app_r_alt by done. by rewrite Nat.sub_diag.
Qed.

Lemma remove_old_files_loop_files (d : path) (w : world) :
  temp_dir (self w) = Some d ->
  is_dir (fs w) d = true ->
  only_files d (fs w) = true ->
  remove_old_files_loop w = (Ok tt, swept d (children d (fs w)) w).
Proof.
  intros Hd Hdir Hfiles.
  apply is_dir_Some in Hdir as (i & Hi & Hmode).
  unfold remove_old_files_loop.
  rewrite (bind_Ok _ _ w w d) by (unfold get_temp_dir; by rewrite Hd).
  rewrite (bind_Ok _ _ w w (map (fun n => d ++ [n]) (children d (fs w)))).
  2:{ unfold iterdir, bind, os.listdir, ret. by rewrite Hi, Hmode. }
  apply remove_old_files_loop_ok; [apply NoDup_children|].
  intros n Hn. apply elem_of_children in Hn as [j Hj].
  apply is_file_Some. exists j. split; [done|].
  by apply (proj1 (only_files_spec d (fs w)) Hfiles n).
Qed.

Lemma remove_old_files_ok (d : path) (w : world) :
  temp_dir (self w) = Some d ->
  is_dir (fs w) d = true ->
  only_files d (fs w) = true ->
  remove_old_files w = (Ok tt, rearmed (swept d (children d (fs w)) w)).
Proof.
  intros Hd Hdir Hfiles. unfold remove_old_files.
  erewrite bind_Ok by by apply remove_old_files_loop_files.
  apply start_periodic_check_ok.
Qed.

(** What a sweep leaves of entry number [k] of the listing. *)
Lemma lookup_swept (d : path) (names : list string) (w : world)
    (k : nat) (n : string) (i : inode) :
  NoDup names ->
  names !! k = Some n ->
  fs w !! (d ++ [n]) = Some i ->
  fs (swept d names w) !! (d ++ [n]) =
    if clock w (ticks w + k)%nat - st_mtime i >? remove_timeout (self w)
    then None else Some i.
Proof.
  intros Hnd Hk Hi. unfold swept. simpl.
  pose proof (elem_of_reaped (remove_timeout (self w)) (clock w) (ticks w) d
                (fs w) names k n i Hnd Hk Hi) as Hiff.
  destruct (Z.gtb_spec (clock w (ticks w + k)%nat - st_mtime i)
              (remove_timeout (self w))) as [Hgt|Hle].
  - apply lookup_unlink_all_elem. apply Hiff. lia.
  - rewrite lookup_unlink_all_ne; [done|].
    intros n' Hn' Heq. apply child_inj in Heq. subst n'.
    apply Hiff in Hn'. lia.
Qed.

(** C2, as the code has it. On an active manager whose scratch directory
    holds regular files, a sweep returns normally and unlinks an entry exactly
    when its age at the reading of the clock taken for that entry (one reading
    per entry, in listing order) is strictly greater than [remove_timeout].
    With a clock that does not run backwards, a file already older than the
    retention when the sweep is invoked is therefore deleted, and a file not
    older than the retention when the sweep has finished survives it. *)
Theorem sweep_reaps_by_age_at_examination (w : world) (d : path) :
  temp_dir (self w) = Some d ->
  is_dir (fs w) d = true ->
  only_files d (fs w) = true ->
  exists w',
    remove_old_files w = (Ok tt, w')
    /\ (forall k n i,
          children d (fs w) !! k = Some n ->
          fs w !! (d ++ [n]) = Some i ->
          fs w' !! (d ++ [n]) =
            if clock w (ticks w + k)%nat - st_mtime i >? remove_timeout (self w)
            then None else Some i)
    /\ (monotone (clock w) ->
        forall n i,
          fs w !! (d ++ [n]) = Some i ->
          (now w - st_mtime i > remove_timeout (self w) ->
           fs w' !! (d ++ [n]) = None)
          /\ (now w' - st_mtime i <= remove_timeout (self w) ->
              fs w' !! (d ++ [n]) = Some i)).
Proof.
  intros Hd Hdir Hfiles. eexists. split; [by apply (remove_old_files_ok d)|].
  assert (forall k n i,
            children d (fs w) !! k = Some n -> fs w !! (d ++ [n]) = Some i ->
            fs (rearmed (swept d (children d (fs w)) w)) !! (d ++ [n]) =
              if clock w (ticks w + k)%nat - st_mtime i
                 >? remove_timeout (self w)
              then None else Some i) as Hentry.
  { intros k n i Hk Hi. simpl.
    by apply (lookup_swept d _ w k n i (NoDup_children d (fs w))). }
  split; [exact Hentry|].
  intros Hmono n i Hi.
  assert (n ∈ children d (fs w)) as Hn by (apply elem_of_children; eauto).
  apply list_elem_of_lookup_1 in Hn as [k Hk].
  pose proof (lookup_lt_Some _ _ _ Hk) as Hlt.
  rewrite (Hentry k n i Hk Hi).
  pose proof (Hmono (ticks w) (ticks w + k)%nat ltac:(lia)) as Hlo.
  pose proof (Hmono (ticks w + k)%nat
                (ticks w + length (children d (fs w)))%nat ltac:(lia)) as Hhi.
  unfold now. simpl.
  destruct (Z.gtb_spec (clock w (ticks w + k)%nat - st_mtime i)
              (remove_timeout (self w))) as [Hgt|Hle];
    split; intros; try done; lia.
Qed.

(** ** A deletion that fails *)

Lemma NoDup_middle_inv (l1 l2 : list string) (n : string) :
  NoDup (l1 ++ n :: l2) ->
  NoDup l1 /\ (n ∉ l1) /\ (forall x, x ∈ l2 -> x ∉ l1).
Proof.
  intros (Hl1 & Hdisj & _)%NoDup_app. split_and!; [done|..].
  - intros Hn. apply (Hdisj n Hn). left.
  - intros x Hx Hx1. apply (Hdisj x Hx1). by right.
Qed.

(** The loop of [remove_old_files] reaching a directory that is old enough
    to be reaped: [unlink] raises and the loop is left. *)
Lemma remove_old_files_loop_raises (d : path) (l1 l2 : list string)
    (n : string) (i : inode) (w : world) :
  NoDup (l1 ++ n :: l2) ->
  (forall x, x ∈ l1 -> is_file (fs w) (d ++ [x]) = true) ->
  fs w !! (d ++ [n]) = Some i ->
  st_mode i = S_IFDIR ->
  clock w (ticks w + length l1)%nat - st_mtime i > remove_timeout (self w) ->
  for_each remove_old_files_body (map (fun x => d ++ [x]) (l1 ++ n :: l2)) w =
    (Raise IsADirectoryError, set_ticks S (swept d l1 w)).
Proof.
  intros (Hnd & Hn & _)%NoDup_middle_inv Hfiles Hi Hmode Hold.
  rewrite map_app, for_each_app.
  erewrite bind_Ok by by apply remove_old_files_loop_ok.
  simpl. apply bind_Raise.
  unfold remove_old_files_body, bind, time.time, os.stat, gets. simpl.
  rewrite lookup_unlink_all_ne.
  2:{ intros x Hx%reaped_subset Heq. apply child_inj in Heq. by subst. }
  rewrite Hi. simpl.
  destruct (_ >? _) eqn:Hgtb.
  2:{ rewrite Z.gtb_ltb in Hgtb. apply Z.ltb_ge in Hgtb. lia. }
  unfold os.unlink. simpl.
  rewrite lookup_unlink_all_ne.
  2:{ intros x Hx%reaped_subset Heq. apply child_inj in Heq. by subst. }
  by rewrite Hi, Hmode.
Qed.

(** The loop of [remove_temp_dir] reaching a directory. *)
Lemma remove_temp_dir_loop_raises (d : path) (l1 l2 : list string)
    (n : string) (i : inode) (w : world) :
  NoDup (l1 ++ n :: l2) ->
  (forall x, x ∈ l1 -> is_file (fs w) (d ++ [x]) = true) ->
  fs w !! (d ++ [n]) = Some i ->
  st_mode i = S_IFDIR ->
  for_each remove_temp_dir_body (map (fun x => d ++ [x]) (l1 ++ n :: l2)) w =
    (Raise IsADirectoryError,
     set_log (fun l => l ++ removed_file_records d l1)
       (set_fs (unlink_all d l1) w)).
Proof.
  intros (Hnd & Hn & _)%NoDup_middle_inv Hfiles Hi Hmode.
  rewrite map_app, for_each_app.
  erewrite bind_Ok by by apply remove_temp_dir_loop_ok.
  simpl. apply bind_Raise.
  unfold remove_temp_dir_body. apply bind_Raise.
  unfold os.unlink. simpl.
  rewrite lookup_unlink_all_ne.
  2:{ intros x Hx Heq. apply child_inj in Heq. by subst. }
  by rewrite Hi, Hmode.
Qed.

Lemma listing_NoDup (d : path) (w : world) (l1 l2 : list string) (n : string) :
  children d (fs w) = l1 ++ n :: l2 -> NoDup (l1 ++ n :: l2).
Proof. intros <-. apply NoDup_children. Qed.

Lemma remove_old_files_raises (w : world) (d : path)
    (l1 l2 : list string) (n : string) (i : inode) :
  temp_dir (self w) = Some d ->
  is_dir (fs w) d = true ->
  children d (fs w) = l1 ++ n :: l2 ->
  (forall x, x ∈ l1 -> is_file (fs w) (d ++ [x]) = true) ->
  fs w !! (d ++ [n]) = Some i ->
  st_mode i = S_IFDIR ->
  clock w (ticks w + length l1)%nat - st_mtime i > remove_timeout (self w) ->
  remove_old_files w = (Raise IsADirectoryError, set_ticks S (swept d l1 w)).
Proof.
  intros Hd Hdir Hls Hfiles Hi Hmode Hold.
  destruct (proj1 (is_dir_Some _ _) Hdir) as (j & Hj & Hjmode).
  unfold remove_old_files. apply bind_Raise.
  unfold remove_old_files_loop.
  rewrite (bind_Ok _ _ w w d) by (unfold get_temp_dir; by rewrite Hd).
  rewrite (bind_Ok _ _ w w (map (fun x => d ++ [x]) (l1 ++ n :: l2))).
  2:{ unfold iterdir, bind, os.listdir, ret. by rewrite Hj, Hjmode, Hls. }
  apply (remove_old_files_loop_raises d l1 l2 n i); try done.
  by apply (listing_NoDup d w).
Qed.

Lemma exit_raises (w : world) (d : path)
    (l1 l2 : list string) (n : string) (i : inode) :
  temp_dir (self w) = Some d ->
  is_dir (fs w) d = true ->
  children d (fs w) = l1 ++ n :: l2 ->
  (forall x, x ∈ l1 -> is_file (fs w) (d ++ [x]) = true) ->
  fs w !! (d ++ [n]) = Some i ->
  st_mode i = S_IFDIR ->
  exit w =
    (Raise IsADirectoryError,
     set_log (fun l => l ++ removed_file_records d l1)
       (set_fs (unlink_all d l1) (stopped w))).
Proof.
  intros Hd Hdir Hls Hfiles Hi Hmode.
  destruct (proj1 (is_dir_Some _ _) Hdir) as (j & Hj & Hjmode).
  destruct (stopped_fields w) as (Hfs1 & Hd1 & Ht1 & _). rewrite Hd in Hd1.
  unfold exit. rewrite (bind_Ok _ _ w w (timer (self w))) by done.
  rewrite (bind_Ok _ _ w (stopped w) tt) by apply exit_stops_first.
  rewrite (bind_Ok _ _ _ (stopped w) (Some d)) by (unfold gets; by rewrite Hd1).
  unfold remove_temp_dir.
  rewrite (bind_Ok _ _ _ (stopped w) d) by (unfold get_temp_dir; by rewrite Hd1).
  rewrite (bind_Ok _ _ _ (stopped w) (map (fun x => d ++ [x]) (l1 ++ n :: l2))).
  2:{ unfold iterdir, bind, os.listdir, ret.
      by rewrite Hfs1, Hj, Hjmode, Hls. }
  apply bind_Raise.
  apply (remove_temp_dir_loop_raises d l1 l2 n i); rewrite ?Hfs1; try done.
  by apply (listing_NoDup d w).
Qed.

(** C7, as the code has it. Neither pass handles a deletion failure. When
    the listing of the scratch directory reaches an entry that cannot be
    unlinked (a directory; for the sweep, one old enough to be reaped) after
    regular files only, the exception leaves the pass at that entry. The
    entries listed before it have been processed: the sweep has examined each
    at its own reading of the clock, unlinked and logged those that were old,
    and taken one more reading for the failing entry; the teardown has
    unlinked and logged them all. The failing entry and the entries listed
    after it are left as they were. The sweep does not arm a new timer and
    leaves the manager's fields alone; the teardown, which cancelled the
    manager's timer and reset [timer] before it began to delete, keeps the
    directory and [temp_dir]. *)
Theorem deletion_failure_aborts_pass (w : world) (d : path)
    (l1 l2 : list string) (n : string) (i : inode) :
  temp_dir (self w) = Some d ->
  is_dir (fs w) d = true ->
  children d (fs w) = l1 ++ n :: l2 ->
  (forall x, x ∈ l1 -> is_file (fs w) (d ++ [x]) = true) ->
  fs w !! (d ++ [n]) = Some i ->
  st_mode i = S_IFDIR ->
  (clock w (ticks w + length l1)%nat - st_mtime i > remove_timeout (self w) ->
   exists w',
     remove_old_files w = (Raise IsADirectoryError, w')
     /\ (forall k x j,
           l1 !! k = Some x ->
           fs w !! (d ++ [x]) = Some j ->
           fs w' !! (d ++ [x]) =
             if clock w (ticks w + k)%nat - st_mtime j >? remove_timeout (self w)
             then None else Some j)
     /\ (forall x, x ∈ n :: l2 -> fs w' !! (d ++ [x]) = fs w !! (d ++ [x]))
     /\ ticks w' = (ticks w + length l1 + 1)%nat
     /\ log w' = log w ++ old_file_records d
                            (reaped (remove_timeout (self w)) (clock w)
                               (ticks w) d (fs w) l1)
     /\ timers w' = timers w
     /\ self w' = self w)
  /\ (exists w',
        exit w = (Raise IsADirectoryError, w')
        /\ (forall x, x ∈ l1 -> fs w' !! (d ++ [x]) = None)
        /\ (forall x, x ∈ n :: l2 -> fs w' !! (d ++ [x]) = fs w !! (d ++ [x]))
        /\ fs w' !! d = fs w !! d
        /\ log w' = log w ++ removed_file_records d l1
        /\ timers w' = match timer (self w) with
                       | Some id => alter cancelled id (timers w)
                       | None => timers w
                       end
        /\ (forall id t, timer (self w) = Some id ->
                         timers w' !! id = Some t -> status t <> Waiting)
        /\ temp_dir (self w') = Some d
        /\ timer (self w') = None).
Proof.
  intros Hd Hdir Hls Hfiles Hi Hmode.
  pose proof (listing_NoDup d w l1 l2 n Hls) as Hnd.
  assert (forall x, x ∈ n :: l2 -> x ∉ l1) as Hrest.
  { apply NoDup_middle_inv in Hnd as (_ & Hn & Hl2).
    intros x [->|Hx]%elem_of_cons; auto. }
  assert (NoDup l1) as Hnd1 by (by apply NoDup_app in Hnd as [? _]).
  split.
  - intros Hold. eexists.
    split; [by apply (remove_old_files_raises w d l1 l2 n i)|].
    split_and!.
    + intros k x j Hk Hj.
      change (fs (set_ticks S (swept d l1 w))) with (fs (swept d l1 w)).
      by apply lookup_swept.
    + intros x Hx. simpl.
      apply lookup_unlink_all_ne. intros y Hy%reaped_subset Heq.
      apply child_inj in Heq. subst y. by apply (Hrest x).
    + unfold swept. fields. lia.
    + done.
    + done.
    + done.
  - eexists. split; [by apply (exit_raises w d l1 l2 n i)|].
    destruct (stopped_fields w) as (Hfs1 & Hd1 & Ht1 & Hlog1). fields.
    rewrite Hfs1, Hd1, Ht1, Hlog1. split_and!; try done.
    + intros x Hx. by apply lookup_unlink_all_elem.
    + intros x Hx. apply lookup_unlink_all_ne. intros y Hy Heq.
      apply child_inj in Heq. subst y. by apply (Hrest x).
    + apply lookup_unlink_all_ne. intros y _ Heq. symmetry in Heq.
      by apply child_ne_parent in Heq.
    + unfold stopped. by destruct (timer (self w)).
    + unfold stopped. intros id t Hid. rewrite Hid. cbn [without_timer].
      fields. apply lookup_alter_cancelled_not_waiting.
Qed.

Lemma sweep_reaps_by_age_at_examination_witness :
  exists w',
    remove_old_files busy = (Ok tt, w')
    /\ fs w' !! (busy_dir ++ ["tmpbaaaaaaa.jpg"]) = Some (file_inode 1001).
Proof.
  destruct (sweep_reaps_by_age_at_examination busy busy_dir)
    as (w' & Hrun & Hentry & _); [vm_compute; reflexivity ..|].
  exists w'. split; [exact Hrun|].
  exact (Hentry 0%nat "tmpbaaaaaaa.jpg" (file_inode 1001) eq_refl eq_refl).
Defined.

(** C2 as stated fails: in [borderline] both files are younger than the
    retention when the sweep is invoked (age 599 against 600), the clock
    advances while the first is examined, and the second is deleted. *)
Lemma reaps_by_age_at_invocation_counterexample :
  ~ reaps_by_age_at_invocation borderline.
Proof.
  intros H.
  specialize (H ["tmp"; "scratch"] "a.jpg" (file_inode 401)
                eq_refl eq_refl eq_refl).
  destruct H as [H _].
  assert (now borderline - st_mtime (file_inode 401)
          > remove_timeout (self borderline)) as Hage
    by (apply H; vm_compute; reflexivity).
  vm_compute in Hage. discriminate Hage.
Qed.

Lemma deletion_failure_aborts_pass_witness :
  (exists w', remove_old_files stuck_midway = (Raise IsADirectoryError, w')
              /\ fs w' !! (busy_dir ++ ["tmpbaaaaaaa.jpg"]) = None
              /\ is_file (fs w') (busy_dir ++ ["tmpcaaaaaaa.mp4"]) = true
              /\ timers w' = timers stuck_midway)
  /\ (exists w', exit stuck_midway = (Raise IsADirectoryError, w')
                 /\ fs w' !! (busy_dir ++ ["tmpbaaaaaaa.jpg"]) = None
                 /\ is_file (fs w') (busy_dir ++ ["tmpcaaaaaaa.mp4"]) = true
                 /\ is_dir (fs w') busy_dir = true
                 /\ status <$> timers w' !! 0%nat = Some Cancelled).
Proof.
  destruct (deletion_failure_aborts_pass stuck_midway busy_dir
              ["tmpbaaaaaaa.jpg"] ["tmpcaaaaaaa.mp4"] "tmpcaaaaaaa.d"
              (dir_inode 1003))
    as [Hsweep Hexit].
  - vm_compute; reflexivity.
  - vm_compute; reflexivity.
  - vm_compute; reflexivity.
  - intros x Hx. apply list_elem_of_singleton in Hx as ->.
    vm_compute; reflexivity.
  - vm_compute; reflexivity.
  - vm_compute; reflexivity.
  - split.
    + destruct Hsweep as (w' & Hrun & Hbefore & Hrest & _ & _ & Htimers & _);
        [vm_compute; reflexivity|].
      exists w'. split_and!; [exact Hrun| | |exact Htimers].
      * rewrite (Hbefore 0%nat "tmpbaaaaaaa.jpg" (file_inode 1001) eq_refl)
          by (vm_compute; reflexivity).
        vm_compute; reflexivity.
      * unfold is_file. rewrite (Hrest "tmpcaaaaaaa.mp4") by (right; left).
        vm_compute; reflexivity.
    + destruct Hexit as (w' & Hrun & Hbefore & Hrest & Hdir & _ & Htimers & _).
      exists w'. split_and!; [exact Hrun| | | |].
      * apply Hbefore. left.
      * unfold is_file. rewrite (Hrest "tmpcaaaaaaa.mp4") by (right; left).
        vm_compute; reflexivity.
      * unfold is_dir. rewrite Hdir. vm_compute; reflexivity.
      * rewrite Htimers. vm_compute; reflexivity.
Defined.

(** C7 as stated fails: in [stuck] the scratch directory holds a
    subdirectory, and both passes end with the exception of its [unlink]. *)
Lemma tolerates_deletion_failure_counterexample :
  ~ tolerates_deletion_failure stuck.
Proof.
  intros [[w' Hsweep] _].
  assert (result_of remove_old_files stuck = Ok tt) as H
    by (unfold result_of; by rewrite Hsweep).
  vm_compute in H. discriminate H.
Qed.

(** In [stuck], with the failing entry listed first, the old files listed
    after it are never examined: they outlive the sweep and the teardown. *)
Example stuck_leaves_files_behind :
  result_of remove_old_files stuck = Raise IsADirectoryError
  /\ is_file (fs (state_after remove_old_files stuck))
       (busy_dir ++ ["tmpbaaaaaaa.jpg"]) = true
  /\ timers (state_after remove_old_files stuck) = timers stuck
  /\ result_of exit stuck = Raise IsADirectoryError
  /\ is_file (fs (state_after exit stuck))
       (busy_dir ++ ["tmpbaaaaaaa.jpg"]) = true
  /\ is_dir (fs (state_after exit stuck)) busy_dir = true.
Proof. vm_compute. by split_and!. Qed.

(** ** Re-arming and cancelling the timer *)

(** C8, as the code has it. A sweep that goes through (an active manager,
    regular files in the scratch directory) ends by arming a new timer for
    [check_interval], whatever it reaped, and makes it the manager's timer; it
    does so unconditionally. A teardown of a manager whose timer is the one
    waiting timer leaves no timer waiting. *)
Theorem sweep_rearms_and_teardown_cancels (w : world) (d : path) :
  temp_dir (self w) = Some d ->
  is_dir (fs w) d = true ->
  only_files d (fs w) = true ->
  (exists w',
     remove_old_files w = (Ok tt, w')
     /\ timers w' =
          timers w ++ [{| interval := check_interval (self w);
                          function := cb_remove_old_files;
                          status := Waiting |}]
     /\ timer (self w') = Some (length (timers w)))
  /\ (forall id,
        timer (self w) = Some id ->
        (forall j t, timers w !! j = Some t -> status t = Waiting -> j = id) ->
        exists w',
          exit w = (Ok tt, w')
          /\ timer (self w') = None
          /\ no_sweep_pending w').
Proof.
  intros Hd Hdir Hfiles. split.
  - eexists. split; [by apply (remove_old_files_ok d)|]. done.
  - intros id Ht Honly. eexists. split; [by apply (exit_ok d)|].
    unfold stopped. rewrite Ht. simpl. split; [done|].
    intros t [j Hj]%list_elem_of_lookup_1 Hw.
    change (alter cancelled id (timers w) !! j = Some t) in Hj.
    destruct (decide (j = id)) as [->|Hne].
    + by apply lookup_alter_cancelled_not_waiting in Hj.
    + rewrite list_lookup_alter_ne in Hj by done. apply Hne. eauto.
Qed.

Lemma sweep_rearms_and_teardown_cancels_witness :
  (exists w', remove_old_files busy = (Ok tt, w')
              /\ timer (self w') = Some (length (timers busy)))
  /\ (exists w', exit busy = (Ok tt, w') /\ no_sweep_pending w').
Proof.
  destruct (sweep_rearms_and_teardown_cancels busy busy_dir)
    as [(w' & Hrun & _ & Ht) Hexit]; [vm_compute; reflexivity ..|].
  split; [exists w'; split; [exact Hrun|exact Ht]|].
  destruct (Hexit 0%nat) as (w'' & Hrun' & _ & Hnone).
  - vm_compute; reflexivity.
  - intros j t Hj Hw.
    assert (timers busy = [{| interval := 60; function := cb_remove_old_files;
                              status := Waiting |}]) as Htimers
      by (vm_compute; reflexivity).
    rewrite Htimers in Hj. destruct j as [|j]; [reflexivity|].
    destruct j; discriminate Hj.
  - exists w''. split; [exact Hrun'|exact Hnone].
Defined.

(** C8 as stated fails: in [sweeping] the teardown arrives while the sweep
    is between its loop and its last line; the sweep then arms a timer, which
    is waiting although the manager is inactive. When that timer fires, the
    sweep finds no [temp_dir]. *)
Lemma no_sweep_pending_counterexample :
  result_of exit_during_remove_old_files sweeping = Ok tt
  /\ temp_dir (self (state_after exit_during_remove_old_files sweeping)) = None
  /\ ~ no_sweep_pending (state_after exit_during_remove_old_files sweeping)
  /\ result_of (Timer_run 1)
       (state_after exit_during_remove_old_files sweeping)
     = Raise AttributeError.
Proof.
  split_and!; try (vm_compute; reflexivity).
  intros H.
  apply (H {| interval := 60; function := cb_remove_old_files;
              status := Waiting |}); [|done].
  apply (list_elem_of_lookup_2 _ 1%nat). vm_compute. reflexivity.
Qed.

(** C9 as stated fails: [stuck] has the manager's [exit] as its exit hook,
    and the hook ends with the exception of a failed [unlink]. *)
Lemma exit_hooks_never_raise_counterexample :
  ~ exit_hooks_never_raise stuck.
Proof.
  intros H. destruct (H cb_exit) as [w' Hrun].
  - apply (list_elem_of_lookup_2 _ 0%nat). vm_compute. reflexivity.
  - assert (result_of (call cb_exit) stuck = Ok tt) as Hr
      by (unfold result_of; by rewrite Hrun).
    vm_compute in Hr. discriminate Hr.
Qed.

(** ** Strings and paths *)

Lemma append_cons (x : ascii) (a b : string) :
  String x a +:+ b = String x (a +:+ b).
Proof. reflexivity. Qed.



Lemma length_append (a b : string) :
  String.length (a +:+ b) = (String.length a + String.length b)%nat.
Proof.
  induction a as [|x a IH]; [done|]. rewrite append_cons. simpl. by f_equal.
Qed.

Lemma has_sep_append (a b : string) :
  has_sep (a +:+ b) = has_sep a || has_sep b.
Proof.
  induction a as [|x a IH]; [done|]. rewrite append_cons. simpl.
  rewrite IH. by destruct (Ascii.eqb x sep).
Qed.

Lemma has_nul_append (a b : string) :
  has_nul (a +:+ b) = has_nul a || has_nul b.
Proof.
  induction a as [|x a IH]; [done|]. rewrite append_cons. simpl.
  rewrite IH. by destruct (Ascii.eqb x Ascii.zero).
Qed.

Lemma split_sep_plain (s : string) : has_sep s = false -> split_sep s = [s].
Proof.
  induction s as [|x s IH]; simpl; [done|].
  destruct (Ascii.eqb x sep); simpl; [done|].
  intros H. by rewrite IH.
Qed.

Lemma isabs_has_sep (s : string) : isabs s = true -> has_sep s = true.
Proof. destruct s as [|x s]; simpl; [done|]. by intros ->. Qed.

Lemma isabs_fspath (d : path) : isabs (fspath d) = true.
Proof. done. Qed.





(** ** Candidate names *)

Lemma choice_not_sep (n : nat) :
  Ascii.eqb (nth (n mod 37) tempfile.characters "a"%char) sep = false.
Proof.
  assert (Forall (fun c => Ascii.eqb c sep = false) tempfile.characters) as Hall.
  { unfold tempfile.characters. simpl. repeat constructor. }
  rewrite Forall_forall in Hall. apply Hall.
  apply list_elem_of_In, nth_In. simpl.
  pose proof (Nat.mod_upper_bound n 37). lia.
Qed.

Lemma has_sep_choices (k n : nat) : has_sep (tempfile.choices k n) = false.
Proof.
  revert n. induction k as [|k IH]; intros n; [done|].
  cbn [tempfile.choices has_sep]. by rewrite choice_not_sep, IH.
Qed.

Lemma length_choices (k n : nat) : String.length (tempfile.choices k n) = k.
Proof.
  revert n. induction k as [|k IH]; intros n; [done|].
  cbn [tempfile.choices String.length]. by rewrite IH.
Qed.

Lemma choice_not_nul (n : nat) :
  Ascii.eqb (nth (n mod 37) tempfile.characters "a"%char) Ascii.zero = false.
Proof.
  assert (Forall (fun c => Ascii.eqb c Ascii.zero = false) tempfile.characters)
    as Hall.
  { unfold tempfile.characters. simpl. repeat constructor. }
  rewrite Forall_forall in Hall. apply Hall.
  apply list_elem_of_In, nth_In. simpl.
  pose proof (Nat.mod_upper_bound n 37). lia.
Qed.

Lemma has_nul_choices (k n : nat) : has_nul (tempfile.choices k n) = false.
Proof.
  revert n. induction k as [|k IH]; intros n; [done|].
  cbn [tempfile.choices has_nul]. by rewrite choice_not_nul, IH.
Qed.

Lemma has_nul_candidate (pre suf : string) (w : world) (k : nat) :
  has_nul (candidate pre suf w k) = has_nul pre || has_nul suf.
Proof.
  unfold candidate. rewrite !has_nul_append, has_nul_choices.
  by destruct (has_nul pre).
Qed.

Lemma length_candidate_eq (pre suf : string) (w : world) (k : nat) :
  String.length (candidate pre suf w k)
  = (String.length pre + 8 + String.length suf)%nat.
Proof. unfold candidate. rewrite !length_append, length_choices. lia. Qed.

(** A name made of a prefix, eight random characters and a suffix. *)
Lemma has_nul_name (pre suf : string) (r : nat) :
  has_nul (pre +:+ tempfile.choices 8 r +:+ suf) = has_nul pre || has_nul suf.
Proof. rewrite !has_nul_append, has_nul_choices. by destruct (has_nul pre). Qed.

Lemma length_name (pre suf : string) (r : nat) :
  String.length (pre +:+ tempfile.choices 8 r +:+ suf)
  = (String.length pre + 8 + String.length suf)%nat.
Proof. rewrite !length_append, length_choices. lia. Qed.

(** The names that [enter] gives a scratch directory are valid file names. *)
Lemma scratch_name_valid (r : nat) :
  has_nul ("py_temp_manager-" +:+ tempfile.choices 8 r +:+ EmptyString) = false
  /\ (NAME_MAX <? String.length
                    ("py_temp_manager-" +:+ tempfile.choices 8 r +:+ EmptyString))%nat
     = false.
Proof. by rewrite has_nul_name, length_name. Qed.

Lemma has_sep_candidate (pre suf : string) (w : world) (k : nat) :
  has_sep pre = false -> has_sep suf = false ->
  has_sep (candidate pre suf w k) = false.
Proof.
  intros Hp Hs. unfold candidate.
  by rewrite !has_sep_append, Hp, Hs, has_sep_choices.
Qed.

Lemma length_candidate (pre suf : string) (w : world) (k : nat) :
  (8 <= String.length (candidate pre suf w k))%nat.
Proof. unfold candidate. rewrite !length_append, length_choices. lia. Qed.

(** ** Creating a file under a plain name *)

Lemma resolve_create_plain (m : gmap path inode) (d : path) (file : string) :
  is_dir m d = true ->
  has_sep file = false ->
  (8 <= String.length file)%nat ->
  resolve_create m d file =
    if (NAME_MAX <? String.length file)%nat then Raise OSError_ENAMETOOLONG
    else match m !! (d ++ [file]) with
         | Some _ => Raise FileExistsError
         | None => Ok (d ++ [file])
         end.
Proof.
  intros (i & Hi & Hmode)%is_dir_Some Hsep Hlen. unfold resolve_create.
  assert (isabs file = false) as ->.
  { destruct (isabs file) eqn:E; [|done]. apply isabs_has_sep in E. congruence. }
  rewrite split_sep_plain by done. cbn [last removelast].
  rewrite decide_False by (intros ->; simpl in Hlen; lia).
  cbn [walk]. rewrite Hi, Hmode.
  rewrite decide_False by (intros [-> | ->]; simpl in Hlen; lia).
  done.
Qed.

Lemma candidate_next (pre suf : string) (w : world) (k : nat) :
  candidate pre suf (set_draws S w) k = candidate pre suf w (S k).
Proof. unfold candidate. simpl. by rewrite Nat.add_succ_r. Qed.

Lemma created_next (d : path) (f : string) (k : nat) (w : world) :
  created d f k (set_draws S w) = created d f (S k) w.
Proof.
  unfold created, set_fs, set_ticks, set_draws, now. fields.
  by rewrite Nat.add_succ_r.
Qed.

(** The first round of the loop of [_mkstemp_inner]: the first candidate is
    drawn and handed to [os.open]. *)
Lemma mkstemp_inner_first (n : nat) (d : path) (pre suf : string) (w : world) :
  tempfile.mkstemp_inner (S n) d pre suf w =
    try_except
      (os.open_excl d (candidate pre suf w 0) ;;
       ret (join (fspath d) (candidate pre suf w 0)))
      FileExistsError (tempfile.mkstemp_inner n d pre suf) (set_draws S w).
Proof.
  cbn [tempfile.mkstemp_inner]. unfold bind at 1, tempfile.next_name at 1.
  assert (pre +:+ tempfile.choices 8 (rand w (draws w)) +:+ suf
          = candidate pre suf w 0) as ->
    by (unfold candidate; by rewrite Nat.add_0_r).
  done.
Qed.

(** A NUL byte in the prefix or the suffix: [os.open] refuses the first
    candidate with [ValueError], which the loop does not catch. *)
Lemma mkstemp_inner_nul (n : nat) (d : path) (pre suf : string) (w : world) :
  has_nul pre || has_nul suf = true ->
  tempfile.mkstemp_inner (S n) d pre suf w
  = (Raise ValueError, set_draws S w).
Proof.
  intros Hnul. rewrite mkstemp_inner_first.
  unfold try_except, bind, os.open_excl. fields.
  by rewrite has_nul_candidate, Hnul.
Qed.

(** One round of the loop of [_mkstemp_inner] in an existing directory, for
    decorations without separator and without NUL byte. *)
Lemma mkstemp_inner_round (n : nat) (d : path) (pre suf : string) (w : world) :
  is_dir (fs w) d = true ->
  has_sep pre = false ->
  has_sep suf = false ->
  has_nul pre || has_nul suf = false ->
  tempfile.mkstemp_inner (S n) d pre suf w =
    if (NAME_MAX <? String.length pre + 8 + String.length suf)%nat
    then (Raise OSError_ENAMETOOLONG, set_draws S w)
    else match fs w !! (d ++ [candidate pre suf w 0]) with
         | Some _ => tempfile.mkstemp_inner n d pre suf (set_draws S w)
         | None =>
             (Ok (join (fspath d) (candidate pre suf w 0)),
              created d (candidate pre suf w 0) 1 w)
         end.
Proof.
  intros Hdir Hpre Hsuf Hnul. rewrite mkstemp_inner_first.
  unfold try_except, bind, os.open_excl. fields.
  rewrite has_nul_candidate, Hnul.
  rewrite resolve_create_plain
    by (auto using has_sep_candidate, length_candidate).
  rewrite length_candidate_eq.
  destruct (_ <? _)%nat; [by rewrite decide_False|].
  destruct (fs w !! (d ++ [candidate pre suf w 0])) as [i|] eqn:Hfirst.
  - by rewrite decide_True.
  - unfold ret. f_equal. unfold created, set_fs, set_ticks, set_draws, now.
    fields. by rewrite Nat.add_1_r.
Qed.

Lemma mkstemp_inner_step (n : nat) (d : path) (pre suf : string) (w : world) :
  is_dir (fs w) d = true ->
  has_sep pre = false ->
  has_sep suf = false ->
  has_nul pre || has_nul suf = false ->
  (String.length pre + 8 + String.length suf <= NAME_MAX)%nat ->
  tempfile.mkstemp_inner (S n) d pre suf w =
    match fs w !! (d ++ [candidate pre suf w 0]) with
    | Some _ => tempfile.mkstemp_inner n d pre suf (set_draws S w)
    | None =>
        (Ok (join (fspath d) (candidate pre suf w 0)),
         created d (candidate pre suf w 0) 1 w)
    end.
Proof.
  intros Hdir Hpre Hsuf Hnul Hlen. rewrite mkstemp_inner_round by done.
  by rewrite (proj2 (Nat.ltb_ge _ _) Hlen).
Qed.

(** What [_mkstemp_inner] does with plain decorations that make valid file
    names, in an existing directory: it creates the first candidate that is
    free, or gives up when all [n] candidates are taken. *)
Lemma mkstemp_inner_plain (n : nat) (d : path) (pre suf : string) (w : world) :
  is_dir (fs w) d = true ->
  has_sep pre = false ->
  has_sep suf = false ->
  has_nul pre || has_nul suf = false ->
  (String.length pre + 8 + String.length suf <= NAME_MAX)%nat ->
  (exists k,
     (k < n)%nat
     /\ (forall j, (j < k)%nat ->
                   is_Some (fs w !! (d ++ [candidate pre suf w j])))
     /\ fs w !! (d ++ [candidate pre suf w k]) = None
     /\ tempfile.mkstemp_inner n d pre suf w =
          (Ok (join (fspath d) (candidate pre suf w k)),
           created d (candidate pre suf w k) (S k) w))
  \/ ((forall j, (j < n)%nat ->
                 is_Some (fs w !! (d ++ [candidate pre suf w j])))
      /\ tempfile.mkstemp_inner n d pre suf w =
           (Raise FileExistsError, set_draws (fun x => (x + n)%nat) w)).
Proof.
  intros Hdir Hpre Hsuf Hnul Hlen. revert w Hdir.
  induction n as [|n IH]; intros w Hdir.
  - right. split; [intros j Hj; lia|].
    cbn [tempfile.mkstemp_inner]. unfold raise, set_draws. destruct w; fields.
    f_equal. f_equal. by rewrite Nat.add_0_r.
  - rewrite mkstemp_inner_step by done.
    destruct (fs w !! (d ++ [candidate pre suf w 0])) as [i|] eqn:Hfirst.
    + destruct (IH (set_draws S w) Hdir)
        as [(k & Hk & Hbusy & Hfree & Hrun)|[Hbusy Hrun]].
      * left. exists (S k). rewrite candidate_next in Hfree, Hrun.
        rewrite created_next in Hrun. split_and!; [lia| |done|done].
        intros [|j] Hj; [eauto|].
        rewrite <- candidate_next. apply Hbusy. lia.
      * right. split.
        -- intros [|j] Hj; [eauto|].
           rewrite <- candidate_next. apply Hbusy. lia.
        -- rewrite Hrun. f_equal. unfold set_draws. fields.
           f_equal. lia.
    + left. exists 0%nat. split_and!; [lia|intros j Hj; lia|done|done].
Qed.

(** ** [request_temp_file] *)

Lemma request_temp_file_unfold (prefix suffix : option string) (w : world) :
  request_temp_file prefix suffix w =
    tempfile.mkstemp_inner (TMP_MAX w)
      (default (tempdir w) (temp_dir (self w)))
      (default "tmp" prefix) (default EmptyString suffix) w.
Proof.
  unfold request_temp_file, tempfile.NamedTemporaryFile, bind, gets, ret,
    tempfile.gettempdir.
  by destruct (temp_dir (self w)).
Qed.

Lemma plain_prefix (prefix : option string) :
  plain prefix = true -> has_sep (default "tmp" prefix) = false.
Proof.
  unfold plain. destruct prefix as [p|]; simpl; [|done].
  by destruct (has_sep p).
Qed.

Lemma plain_suffix (suffix : option string) :
  plain suffix = true -> has_sep (default EmptyString suffix) = false.
Proof. unfold plain. by destruct (has_sep _). Qed.

Lemma fits_spec (prefix suffix : option string) :
  fits prefix suffix = true <->
  has_nul (default "tmp" prefix) || has_nul (default EmptyString suffix) = false
  /\ (String.length (default "tmp" prefix) + 8
      + String.length (default EmptyString suffix) <= NAME_MAX)%nat.
Proof.
  unfold fits. cbv zeta.
  rewrite !andb_true_iff, !negb_true_iff, orb_false_iff, Nat.leb_le. tauto.
Qed.

(** A request with plain decorations that fit, into an existing directory. *)
Lemma request_temp_file_plain (prefix suffix : option string) (w : world) :
  let d := default (tempdir w) (temp_dir (self w)) in
  let pre := default "tmp" prefix in
  let suf := default EmptyString suffix in
  is_dir (fs w) d = true ->
  plain prefix = true ->
  plain suffix = true ->
  fits prefix suffix = true ->
  (exists k,
     (k < TMP_MAX w)%nat
     /\ fs w !! (d ++ [candidate pre suf w k]) = None
     /\ request_temp_file prefix suffix w =
          (Ok (join (fspath d) (candidate pre suf w k)),
           created d (candidate pre suf w k) (S k) w))
  \/ ((forall j, (j < TMP_MAX w)%nat ->
                 is_Some (fs w !! (d ++ [candidate pre suf w j])))
      /\ request_temp_file prefix suffix w =
           (Raise FileExistsError,
            set_draws (fun x => (x + TMP_MAX w)%nat) w)).
Proof.
  intros d pre suf Hdir Hp%plain_prefix Hs%plain_suffix [Hnul Hlen]%fits_spec.
  rewrite request_temp_file_unfold.
  destruct (mkstemp_inner_plain (TMP_MAX w) d pre suf w Hdir Hp Hs Hnul Hlen)
    as [(k & Hk & _ & Hfree & Hrun)|[Hbusy Hrun]]; [left|right]; eauto.
Qed.

(** A request with plain decorations that do not fit, into an existing
    directory: the first candidate is refused, nothing is created. *)
Lemma request_temp_file_unfit (prefix suffix : option string) (w : world) :
  let d := default (tempdir w) (temp_dir (self w)) in
  let pre := default "tmp" prefix in
  let suf := default EmptyString suffix in
  is_dir (fs w) d = true ->
  plain prefix = true ->
  plain suffix = true ->
  fits prefix suffix = false ->
  (0 < TMP_MAX w)%nat ->
  request_temp_file prefix suffix w =
    (Raise (if has_nul pre || has_nul suf then ValueError
            else OSError_ENAMETOOLONG),
     set_draws S w).
Proof.
  intros d pre suf Hdir Hp%plain_prefix Hs%plain_suffix Hfits Hpos.
  rewrite request_temp_file_unfold. fold d pre suf.
  destruct (TMP_MAX w) as [|n]; [lia|].
  destruct (has_nul pre || has_nul suf) eqn:Hnul.
  - by apply mkstemp_inner_nul.
  - rewrite mkstemp_inner_round by done.
    destruct (Nat.ltb_spec NAME_MAX (String.length pre + 8 + String.length suf))
      as [Hlong|Hshort]; [done|].
    assert (fits prefix suffix = true) as Hyes by (by apply fits_spec).
    congruence.
Qed.

(** However many tries are allowed, a request with plain decorations that do
    not fit raises and leaves the file system, the manager and the timers as
    they were. *)
Lemma request_temp_file_unfit_raises (prefix suffix : option string) (w : world) :
  let d := default (tempdir w) (temp_dir (self w)) in
  is_dir (fs w) d = true ->
  plain prefix = true ->
  plain suffix = true ->
  fits prefix suffix = false ->
  exists e w',
    request_temp_file prefix suffix w = (Raise e, w')
    /\ fs w' = fs w /\ self w' = self w /\ timers w' = timers w.
Proof.
  intros d Hdir Hp Hs Hfits.
  destruct (TMP_MAX w) as [|n] eqn:Hmax.
  - exists FileExistsError, w. split; [|done].
    rewrite request_temp_file_unfold, Hmax. done.
  - eexists _, _. split.
    + apply request_temp_file_unfit; [done..|lia].
    + done.
Qed.

(** C3, as the code has it. A request on an inactive manager is not refused:
    the allocator is given no directory and falls back on the platform's
    temporary directory. With decorations that hold no separator and no NUL
    byte and are short enough for a file name, and a free candidate name
    within [TMP_MAX] tries, the call returns the path of a new empty file
    created there. *)
Theorem request_when_inactive_falls_back (w : world)
    (prefix suffix : option string) (k : nat) :
  temp_dir (self w) = None ->
  is_dir (fs w) (tempdir w) = true ->
  plain prefix = true ->
  plain suffix = true ->
  fits prefix suffix = true ->
  (k < TMP_MAX w)%nat ->
  fs w !! (tempdir w ++ [candidate (default "tmp" prefix)
                           (default EmptyString suffix) w k]) = None ->
  exists f s w',
    request_temp_file prefix suffix w = (Ok s, w')
    /\ s = join (fspath (tempdir w)) f
    /\ fs w !! (tempdir w ++ [f]) = None
    /\ fs w' = <[tempdir w ++ [f] := file_inode (now w)]> (fs w)
    /\ self w' = self w.
Proof.
  intros Hnone Hdir Hp Hs Hfits Hk Hfree.
  pose proof (request_temp_file_plain prefix suffix w) as Hreq.
  rewrite Hnone in Hreq.
  change (default (tempdir w) None) with (tempdir w) in Hreq.
  destruct (Hreq Hdir Hp Hs Hfits) as [(k' & _ & Hfree' & Hrun)|[Hbusy _]].
  - eexists _, _, _. split; [exact Hrun|]. by split_and!.
  - destruct (Hbusy k Hk) as [i Hi]. congruence.
Qed.

Lemma request_when_inactive_falls_back_witness :
  exists f s w',
    request_temp_file None (Some ".jpg") constructed = (Ok s, w')
    /\ s = join (fspath ["tmp"]) f
    /\ fs constructed !! (["tmp"] ++ [f]) = None.
Proof.
  destruct (request_when_inactive_falls_back constructed None (Some ".jpg") 0)
    as (f & s & w' & Hrun & Hs & Hnew & _).
  - vm_compute; reflexivity.
  - vm_compute; reflexivity.
  - reflexivity.
  - reflexivity.
  - vm_compute; reflexivity.
  - vm_compute; lia.
  - vm_compute; reflexivity.
  - exists f, s, w'. split_and!; [exact Hrun|exact Hs|exact Hnew].
Defined.

(** C3 as stated fails: the constructed, never entered manager of
    [constructed] answers a request with a path. *)
Lemma refuses_when_inactive_counterexample :
  ~ refuses_when_inactive constructed None (Some ".jpg").
Proof.
  intros H. destruct H as [e He]; [vm_compute; reflexivity|].
  assert (result_of (request_temp_file None (Some ".jpg")) constructed
          = Raise e) as Hr by (unfold result_of; by rewrite He).
  vm_compute in Hr. discriminate Hr.
Qed.

(** What the fallback does in [constructed]: the file appears in [/tmp]. *)
Example inactive_request_creates_in_tmp :
  result_of (request_temp_file None (Some ".jpg")) constructed
  = Ok "/tmp/tmpaaaaaaaa.jpg"
  /\ fs (state_after (request_temp_file None (Some ".jpg")) constructed)
       !! ["tmp"; "tmpaaaaaaaa.jpg"] = Some (file_inode 1000).
Proof. split; vm_compute; reflexivity. Qed.

(** [_mkstemp_inner] touches the file system, the clock and the name source
    only. *)
Lemma mkstemp_inner_touches (n : nat) (d : path) (pre suf : string) (w : world) :
  exists f g h,
    (tempfile.mkstemp_inner n d pre suf w).2
    = set_fs f (set_ticks g (set_draws h w)).
Proof.
  revert w. induction n as [|n IH]; intros w.
  - exists id, id, id. by destruct w.
  - cbn [tempfile.mkstemp_inner].
    unfold bind at 1, tempfile.next_name at 1, try_except, bind, os.open_excl.
    fields.
    destruct (has_nul _); [by exists id, id, S|].
    destruct (resolve_create (fs w) d _) as [p|e].
    + by eexists _, S, S.
    + destruct (decide (e = FileExistsError)).
      * destruct (IH (set_draws S w)) as (f & g & h & ->).
        by exists f, g, (fun x => h (S x)).
      * by exists id, id, S.
Qed.

(** C10. For any manager and any arguments, and however the call ends,
    [request_temp_file] leaves the manager's fields ([temp_dir], [timer],
    [check_interval], [remove_timeout]) and the timer objects as they were. *)
Theorem request_leaves_manager_unchanged (prefix suffix : option string)
    (w : world) :
  self (state_after (request_temp_file prefix suffix) w) = self w
  /\ timers (state_after (request_temp_file prefix suffix) w) = timers w.
Proof.
  unfold state_after. rewrite request_temp_file_unfold.
  destruct (mkstemp_inner_touches (TMP_MAX w)
              (default (tempdir w) (temp_dir (self w)))
              (default "tmp" prefix) (default EmptyString suffix) w)
    as (f & g & h & ->). done.
Qed.

(** ** Sequences of requests *)

Lemma created_fields (d : path) (f : string) (k : nat) (w : world) :
  fs (created d f k w) = <[d ++ [f] := file_inode (now w)]> (fs w)
  /\ self (created d f k w) = self w.
Proof. done. Qed.

Lemma is_dir_insert_child (m : gmap path inode) (d : path) (f : string)
    (i : inode) :
  is_dir m d = true -> is_dir (<[d ++ [f] := i]> m) d = true.
Proof.
  unfold is_dir. by rewrite lookup_insert_ne by apply child_ne_parent.
Qed.





(** Where the file of that request went: into [/tmp], beside the scratch
    directory. *)
Example dot_dot_prefix_escapes :
  result_of (request_temp_file (Some "../") None) busy
  = Ok "/tmp/py_temp_manager-aaaaaaaa/../daaaaaaa"
  /\ fs (state_after (request_temp_file (Some "../") None) busy)
       !! ["tmp"; "daaaaaaa"] = Some (file_inode 1003)
  /\ fs busy !! ["tmp"; "daaaaaaa"] = None.
Proof. split_and!; vm_compute; reflexivity. Qed.

(** ** The manager as a context manager *)

Lemma __exit___ok (exc : option exn) (d : path) (w : world) :
  temp_dir (self w) = Some d ->
  is_dir (fs w) d = true ->
  only_files d (fs w) = true ->
  __exit__ exc w = (Ok false, without_temp_dir d (stopped w)).
Proof.
  intros Hd Hdir Hfiles. unfold __exit__.
  by rewrite (bind_Ok _ _ w (without_temp_dir d (stopped w)) tt)
    by by apply exit_ok.
Qed.

(** C6. [with mgr: body] first runs [enter]; then, however the block ends
    (falling off its end, [return], or an exception), [exit] runs once on the
    state the block left, and the block's completion is what the statement
    yields (an exception is re-raised). When the block leaves regular files
    in the scratch directory, that directory is gone afterwards, the manager
    is inactive, the log ends with the one record of the removal, and a later
    [exit] (the exit hook) does nothing. *)
Theorem scoped_use_tears_down {V} (body : M (option V))
    (w w1 w2 : world) (c : outcome (option V)) (d : path) :
  __enter__ w = (Ok tt, w1) ->
  body w1 = (c, w2) ->
  temp_dir (self w2) = Some d ->
  is_dir (fs w2) d = true ->
  only_files d (fs w2) = true ->
  exists w3,
    with_statement body w = (c, w3)
    /\ fs w3 !! d = None
    /\ (forall n, fs w3 !! (d ++ [n]) = None)
    /\ temp_dir (self w3) = None
    /\ timer (self w3) = None
    /\ log w3 = log w2 ++ removed_file_records d (children d (fs w2))
                      ++ [deleted_record d]
    /\ exit w3 = (Ok tt, w3).
Proof.
  intros Henter Hbody Hd Hdir Hfiles.
  destruct (stopped_fields w2) as (Hfs & _ & Ht & Hlog).
  exists (without_temp_dir d (stopped w2)). split_and!.
  - unfold with_statement. rewrite (bind_Ok _ _ w w1 tt) by done.
    rewrite Hbody. destruct c as [r|e].
    + by rewrite (bind_Ok _ _ w2 (without_temp_dir d (stopped w2)) false)
        by by apply __exit___ok.
    + by rewrite (bind_Ok _ _ w2 (without_temp_dir d (stopped w2)) false)
        by by apply __exit___ok.
  - cbn [without_temp_dir]. fields. apply lookup_delete_eq.
  - intros n. unfold without_temp_dir. fields. rewrite Hfs.
    rewrite lookup_delete_ne by (symmetry; apply child_ne_parent).
    apply lookup_unlink_all_children.
  - done.
  - unfold without_temp_dir. fields. by rewrite Ht.
  - unfold without_temp_dir. fields. by rewrite Hlog, Hfs.
  - apply exit_inactive; unfold without_temp_dir; fields; by rewrite ?Ht.
Qed.

Lemma scoped_use_tears_down_witness :
  exists w3,
    with_statement failing_capture constructed = (Raise FileNotFoundError, w3)
    /\ fs w3 !! busy_dir = None
    /\ temp_dir (self w3) = None.
Proof.
  destruct (scoped_use_tears_down failing_capture constructed
              (state_after __enter__ constructed)
              (state_after failing_capture (state_after __enter__ constructed))
              (Raise FileNotFoundError) busy_dir)
    as (w3 & Hrun & Hgone & _ & Hnone & _); [vm_compute; reflexivity ..|].
  exists w3. split_and!; [exact Hrun|exact Hgone|exact Hnone].
Defined.

(** ** The exit hook *)

(** C9, as the code has it. Construction registers [exit] itself, once, as
    the exit hook; nothing in it catches an exception. Called as the hook, it
    does nothing on an inactive manager, removes a scratch directory that
    holds regular files and returns, and when an entry cannot be unlinked the
    exception of that [unlink] leaves the hook. *)
Theorem exit_hook_is_bare_teardown :
  (forall ci rt w,
     exit_hooks (state_after (__init__ ci rt) w) = exit_hooks w ++ [cb_exit])
  /\ (forall w,
        timer (self w) = None -> temp_dir (self w) = None ->
        call cb_exit w = (Ok tt, w))
  /\ (forall w d,
        temp_dir (self w) = Some d ->
        is_dir (fs w) d = true ->
        only_files d (fs w) = true ->
        exists w', call cb_exit w = (Ok tt, w') /\ fs w' !! d = None)
  /\ (forall w d l1 n l2 i,
        temp_dir (self w) = Some d ->
        is_dir (fs w) d = true ->
        children d (fs w) = l1 ++ n :: l2 ->
        (forall x, x ∈ l1 -> is_file (fs w) (d ++ [x]) = true) ->
        fs w !! (d ++ [n]) = Some i ->
        st_mode i = S_IFDIR ->
        exists w', call cb_exit w = (Raise IsADirectoryError, w')).
Proof.
  split_and!.
  - done.
  - intros w Ht Hd. by apply exit_inactive.
  - intros w d Hd Hdir Hfiles. eexists. split; [by apply (exit_ok d)|].
    cbn [without_temp_dir]. fields. apply lookup_delete_eq.
  - intros w d l1 n l2 i Hd Hdir Hls Hfiles Hi Hmode.
    eexists. by apply (exit_raises w d l1 l2 n i).
Qed.

Lemma exit_hook_is_bare_teardown_witness :
  (exists w', call cb_exit busy = (Ok tt, w') /\ fs w' !! busy_dir = None)
  /\ (exists w', call cb_exit stuck = (Raise IsADirectoryError, w')).
Proof.
  destruct exit_hook_is_bare_teardown as (_ & _ & Hgood & Hbad). split.
  - apply (Hgood busy busy_dir); vm_compute; reflexivity.
  - apply (Hbad stuck busy_dir [] "frames"
             ["tmpbaaaaaaa.jpg"; "tmpcaaaaaaa.mp4"] (dir_inode 1003)).
    + vm_compute; reflexivity.
    + vm_compute; reflexivity.
    + vm_compute; reflexivity.
    + intros x Hx. by apply elem_of_nil in Hx.
    + vm_compute; reflexivity.
    + vm_compute; reflexivity.
Defined.

(** * Further properties of the manager *)

(** ** Activation *)

Lemma made_next (d : path) (f : string) (k : nat) (w : world) :
  made d f k (set_draws S w) = made d f (S k) w.
Proof.
  unfold made, set_fs, set_ticks, set_draws, now. fields.
  by rewrite Nat.add_succ_r.
Qed.

(** One round of the loop of [mkdtemp], for a prefix that makes valid file
    names. *)
Lemma mkdtemp_loop_step (n : nat) (d : path) (pre : string) (w : world) :
  is_dir (fs w) d = true ->
  has_nul pre = false ->
  (String.length pre + 8 <= NAME_MAX)%nat ->
  tempfile.mkdtemp_loop (S n) d pre EmptyString w =
    match fs w !! (d ++ [candidate pre EmptyString w 0]) with
    | Some _ => tempfile.mkdtemp_loop n d pre EmptyString (set_draws S w)
    | None =>
        (Ok (d ++ [candidate pre EmptyString w 0]),
         made d (candidate pre EmptyString w 0) 1 w)
    end.
Proof.
  intros (i & Hi & Hmode)%is_dir_Some Hnul Hlen.
  cbn [tempfile.mkdtemp_loop]. unfold bind at 1, tempfile.next_name at 1.
  assert (pre +:+ tempfile.choices 8 (rand w (draws w)) +:+ EmptyString
          = candidate pre EmptyString w 0) as ->
    by (unfold candidate; by rewrite Nat.add_0_r).
  unfold try_except, bind, os.mkdir. fields.
  rewrite has_nul_candidate, Hnul. cbn [has_nul orb]. rewrite Hi, Hmode.
  rewrite (proj2 (Nat.ltb_ge _ _))
    by (rewrite length_candidate_eq; cbn [String.length]; lia).
  destruct (fs w !! (d ++ [candidate pre EmptyString w 0])) as [j|] eqn:Hfirst.
  - by rewrite decide_True.
  - unfold ret. f_equal. unfold made, set_fs, set_ticks, set_draws, now.
    fields. by rewrite Nat.add_1_r.
Qed.

(** [mkdtemp] in an existing directory makes the first candidate that is
    free, or gives up when all [n] candidates are taken. *)
Lemma mkdtemp_loop_spec (n : nat) (d : path) (pre : string) (w : world) :
  is_dir (fs w) d = true ->
  has_nul pre = false ->
  (String.length pre + 8 <= NAME_MAX)%nat ->
  (exists k,
     (k < n)%nat
     /\ (forall j, (j < k)%nat ->
                   is_Some (fs w !! (d ++ [candidate pre EmptyString w j])))
     /\ fs w !! (d ++ [candidate pre EmptyString w k]) = None
     /\ tempfile.mkdtemp_loop n d pre EmptyString w =
          (Ok (d ++ [candidate pre EmptyString w k]),
           made d (candidate pre EmptyString w k) (S k) w))
  \/ ((forall j, (j < n)%nat ->
                 is_Some (fs w !! (d ++ [candidate pre EmptyString w j])))
      /\ tempfile.mkdtemp_loop n d pre EmptyString w =
           (Raise FileExistsError, set_draws (fun x => (x + n)%nat) w)).
Proof.
  intros Hdir Hnul Hlen. revert w Hdir. induction n as [|n IH]; intros w Hdir.
  - right. split; [intros j Hj; lia|].
    cbn [tempfile.mkdtemp_loop]. unfold raise, set_draws. destruct w; fields.
    f_equal. f_equal. by rewrite Nat.add_0_r.
  - rewrite mkdtemp_loop_step by done.
    destruct (fs w !! (d ++ [candidate pre EmptyString w 0])) as [i|] eqn:Hfirst.
    + destruct (IH (set_draws S w) Hdir)
        as [(k & Hk & Hbusy & Hfree & Hrun)|[Hbusy Hrun]].
      * left. exists (S k). rewrite candidate_next in Hfree, Hrun.
        rewrite made_next in Hrun. split_and!; [lia| |done|done].
        intros [|j] Hj; [eauto|].
        rewrite <- candidate_next. apply Hbusy. lia.
      * right. split.
        -- intros [|j] Hj; [eauto|].
           rewrite <- candidate_next. apply Hbusy. lia.
        -- rewrite Hrun. f_equal. unfold set_draws. fields. f_equal. lia.
    + left. exists 0%nat. split_and!; [lia|intros j Hj; lia|done|done].
Qed.

(** What [enter] does once [mkdtemp] has made its directory. *)
Lemma enter_after_mkdtemp (f : string) (k : nat) (w : world) :
  tempfile.mkdtemp "py_temp_manager-" w
  = (Ok (tempdir w ++ [f]), made (tempdir w) f k w) ->
  enter w = (Ok tt, entered f k w).
Proof.
  intros Hmk. unfold enter. rewrite (bind_Ok _ _ _ _ _ Hmk).
  unfold bind at 1, modify at 1. unfold bind at 1, logger.info, modify.
  apply start_periodic_check_ok.
Qed.

Lemma mkdtemp_unfold (prefix : string) (w : world) :
  tempfile.mkdtemp prefix w =
    tempfile.mkdtemp_loop (TMP_MAX w) (tempdir w) prefix EmptyString w.
Proof. done. Qed.

Lemma append_nil_r (s : string) : s +:+ EmptyString = s.
Proof. induction s as [|x s IH]; [done|]. rewrite append_cons. by f_equal. Qed.

Lemma entered_fields (f : string) (k : nat) (w : world) :
  fs (entered f k w) = <[tempdir w ++ [f] := dir_inode (now w)]> (fs w)
  /\ temp_dir (self (entered f k w)) = Some (tempdir w ++ [f])
  /\ timer (self (entered f k w)) = Some (length (timers w))
  /\ timers (entered f k w) = timers w ++ [next_sweep w]
  /\ log (entered f k w) =
       log w ++ [(INFO, "Temporary directory created at " +:+
                        fspath (tempdir w ++ [f]))].
Proof. done. Qed.

(** [enter] with a usable temporary directory. *)
Lemma enter_ok (w : world) (k : nat) :
  is_dir (fs w) (tempdir w) = true ->
  (k < TMP_MAX w)%nat ->
  fs w !! (tempdir w ++ [candidate "py_temp_manager-" EmptyString w k]) = None ->
  exists k',
    (k' <= k)%nat
    /\ fs w !! (tempdir w ++ [candidate "py_temp_manager-" EmptyString w k'])
       = None
    /\ enter w =
         (Ok tt, entered (candidate "py_temp_manager-" EmptyString w k') (S k') w).
Proof.
  intros Hdir Hk Hfree.
  destruct (mkdtemp_loop_spec (TMP_MAX w) (tempdir w) "py_temp_manager-" w Hdir
              eq_refl ltac:(by apply Nat.leb_le))
    as [(k' & Hk' & Hbusy & Hfree' & Hrun)|[Hbusy _]].
  - exists k'. split_and!; [|done|].
    + destruct (decide (k' <= k)%nat) as [|Hgt]; [done|].
      destruct (Hbusy k ltac:(lia)) as [i Hi]. congruence.
    + apply enter_after_mkdtemp. by rewrite mkdtemp_unfold.
  - destruct (Hbusy k Hk) as [i Hi]. congruence.
Qed.

(** X1. [enter] on a machine whose temporary directory exists and where a
    candidate name within [TMP_MAX] tries is free: it returns normally, having
    made a directory "py_temp_manager-" followed by eight random characters
    directly under the temporary directory, where nothing was before; that
    directory is now [temp_dir], its creation is logged, and a timer for
    [check_interval] that will call [remove_old_files] is armed and recorded
    as [timer]. *)
Theorem enter_activates (w : world) (k : nat) :
  is_dir (fs w) (tempdir w) = true ->
  (k < TMP_MAX w)%nat ->
  fs w !! (tempdir w ++ [candidate "py_temp_manager-" EmptyString w k]) = None ->
  exists r w',
    let d := tempdir w ++ ["py_temp_manager-" +:+ r] in
    enter w = (Ok tt, w')
    /\ String.length r = 8%nat
    /\ has_sep r = false
    /\ fs w !! d = None
    /\ fs w' = <[d := dir_inode (now w)]> (fs w)
    /\ temp_dir (self w') = Some d
    /\ timer (self w') = Some (length (timers w))
    /\ timers w' = timers w ++ [{| interval := check_interval (self w);
                                   function := cb_remove_old_files;
                                   status := Waiting |}]
    /\ log w' = log w ++ [(INFO, "Temporary directory created at " +:+ fspath d)].
Proof.
  intros Hdir Hk Hfree.
  destruct (enter_ok w k Hdir Hk Hfree) as (k' & _ & Hfree' & Hrun).
  unfold candidate in Hrun, Hfree'. rewrite append_nil_r in Hrun, Hfree'.
  exists (tempfile.choices 8 (rand w (draws w + k'))),
    (entered ("py_temp_manager-" +:+ tempfile.choices 8 (rand w (draws w + k')))
       (S k') w).
  cbv zeta. split_and!; [exact Hrun|apply length_choices|apply has_sep_choices
                        |done..].
Qed.

Lemma enter_activates_witness :
  exists r w',
    enter constructed = (Ok tt, w')
    /\ String.length r = 8%nat
    /\ temp_dir (self w') = Some (["tmp"] ++ ["py_temp_manager-" +:+ r]).
Proof.
  destruct (enter_activates constructed 0)
    as (r & w' & Hrun & Hlen & _ & _ & _ & Hd & _);
    [vm_compute; reflexivity | vm_compute; lia | vm_compute; reflexivity |].
  exists r, w'. split_and!; [exact Hrun|exact Hlen|exact Hd].
Defined.

(** ** Activation that fails *)

Lemma mkdtemp_loop_raises (n : nat) (d : path) (pre : string)
    (w w' : world) (e : exn) :
  has_nul pre = false ->
  (String.length pre + 8 <= NAME_MAX)%nat ->
  tempfile.mkdtemp_loop n d pre EmptyString w = (Raise e, w') ->
  (exists h, w' = set_draws h w)
  /\ (e = FileNotFoundError \/ e = NotADirectoryError \/ e = FileExistsError).
Proof.
  intros Hnul Hlen. revert w. induction n as [|n IH]; intros w.
  - cbn [tempfile.mkdtemp_loop]. intros [= <- <-].
    split; [exists id; by destruct w|auto].
  - cbn [tempfile.mkdtemp_loop].
    unfold bind at 1, tempfile.next_name at 1, try_except, bind, os.mkdir.
    fields. rewrite has_nul_name, Hnul. cbn [has_nul orb].
    destruct (fs w !! d) as [[[] ? ?]|]; cbn [st_mode].
    + rewrite decide_False by done. intros [= <- <-].
      split; [by exists S|auto].
    + rewrite (proj2 (Nat.ltb_ge _ _))
        by (rewrite length_name; cbn [String.length]; lia).
      destruct (fs w !! (d ++ _)).
      * rewrite decide_True by done. intros Hrun.
        destruct (IH _ Hrun) as [[h ->] He].
        split; [by exists (fun x => h (S x))|done].
      * done.
    + rewrite decide_False by done. intros [= <- <-].
      split; [by exists S|auto].
Qed.

(** X2. An [enter] that fails leaves no trace: the file system, the
    manager's fields, the timers and the log are as before (only names were
    drawn), and the exception is one of [mkdtemp]'s. It does fail, with
    [FileNotFoundError], when the temporary directory does not exist. *)
Theorem enter_failure_leaves_no_trace :
  (forall w w' e,
     enter w = (Raise e, w') ->
     fs w' = fs w /\ self w' = self w /\ timers w' = timers w
     /\ log w' = log w
     /\ (e = FileNotFoundError \/ e = NotADirectoryError
         \/ e = FileExistsError))
  /\ (forall w,
        fs w !! tempdir w = None ->
        (0 < TMP_MAX w)%nat ->
        exists w', enter w = (Raise FileNotFoundError, w')).
Proof.
  split.
  - intros w w' e. unfold enter, bind at 1.
    destruct (tempfile.mkdtemp "py_temp_manager-" w) as [[d|e'] w1] eqn:Hmk.
    + unfold bind at 1, modify at 1. unfold bind at 1, logger.info, modify.
      by rewrite start_periodic_check_ok.
    + intros [= <- <-]. rewrite mkdtemp_unfold in Hmk.
      apply mkdtemp_loop_raises in Hmk as [[h ->] He];
        [done|done|by apply Nat.leb_le].
  - intros w Hnone Hpos. unfold enter. eexists. apply bind_Raise.
    rewrite mkdtemp_unfold. destruct (TMP_MAX w) as [|n]; [lia|].
    cbn [tempfile.mkdtemp_loop].
    unfold bind at 1, tempfile.next_name at 1, try_except, bind, os.mkdir.
    fields. rewrite (proj1 (scratch_name_valid _)), Hnone.
    by rewrite decide_False.
Qed.

Lemma enter_failure_leaves_no_trace_witness :
  exists w', enter no_tmp = (Raise FileNotFoundError, w')
             /\ fs w' = fs no_tmp /\ self w' = self no_tmp.
Proof.
  destruct enter_failure_leaves_no_trace as [Hclean Hfails].
  destruct (Hfails no_tmp) as [w' Hrun];
    [vm_compute; reflexivity | vm_compute; lia |].
  exists w'. destruct (Hclean no_tmp w' _ Hrun) as (Hfs & Hself & _).
  split_and!; [exact Hrun|exact Hfs|exact Hself].
Defined.

(** ** Activation undone *)

Lemma well_formed_spec (m : gmap path inode) :
  well_formed m = true ->
  forall p n, is_Some (m !! (p ++ [n])) -> is_dir m p = true.
Proof.
  unfold well_formed. rewrite forallb_forall. intros H p n [i Hi].
  specialize (H (p ++ [n], i)). cbn [fst] in H.
  unfold dirname in H. rewrite removelast_last in H.
  destruct (p ++ [n]) as [|x l] eqn:E.
  - by destruct p.
  - apply H. apply list_elem_of_In. by apply elem_of_map_to_list.
Qed.

Lemma entered_scratch_empty (f : string) (k : nat) (w : world) :
  well_formed (fs w) = true ->
  fs w !! (tempdir w ++ [f]) = None ->
  children (tempdir w ++ [f]) (fs (entered f k w)) = [].
Proof.
  intros Hwf Hnew. apply children_nil. intros n.
  destruct (entered_fields f k w) as (-> & _).
  rewrite lookup_insert_ne by (symmetry; apply child_ne_parent).
  apply eq_None_not_Some. intros Hsome.
  apply (well_formed_spec _ Hwf) in Hsome.
  apply is_dir_Some in Hsome as (i & Hi & _). congruence.
Qed.

(** [exit] right after [enter] gives the file system back. *)
Lemma exit_entered (f : string) (k : nat) (w : world) :
  well_formed (fs w) = true ->
  fs w !! (tempdir w ++ [f]) = None ->
  exists w',
    exit (entered f k w) = (Ok tt, w')
    /\ fs w' = fs w
    /\ temp_dir (self w') = None
    /\ timer (self w') = None
    /\ timers w' = timers w ++ [cancelled (next_sweep w)].
Proof.
  intros Hwf Hnew. set (d := tempdir w ++ [f]).
  pose proof (entered_scratch_empty f k w Hwf Hnew) as Hempty. fold d in Hempty.
  destruct (entered_fields f k w) as (Hfs & Hd & Ht & Htimers & _). fold d in Hfs, Hd.
  assert (is_dir (fs (entered f k w)) d = true) as Hdir.
  { unfold is_dir. by rewrite Hfs, lookup_insert_eq. }
  assert (only_files d (fs (entered f k w)) = true) as Hfiles.
  { unfold only_files. by rewrite Hempty. }
  exists (without_temp_dir d (stopped (entered f k w))).
  split; [by apply exit_ok|].
  assert (stopped (entered f k w)
          = without_timer (length (timers w)) (entered f k w)) as Hstop.
  { unfold stopped. by rewrite Ht. }
  split_and!.
  - unfold without_temp_dir. fields. rewrite Hstop.
    change (fs (without_timer (length (timers w)) (entered f k w)))
      with (fs (entered f k w)).
    rewrite Hempty. cbn [unlink_all foldl]. rewrite Hfs.
    by apply delete_insert_id.
  - done.
  - by rewrite Hstop.
  - rewrite Hstop.
    change (alter cancelled (length (timers w)) (timers (entered f k w))
            = timers w ++ [cancelled (next_sweep w)]).
    rewrite Htimers, alter_app_r_alt by done. by rewrite Nat.sub_diag.
Qed.

(** X3. [enter] followed at once by [exit], on a well-formed file system
    with a usable temporary directory: both return normally, the file system
    is exactly what it was, the manager is inactive, and the one timer that
    was armed is cancelled. *)
Theorem enter_exit_round_trip (w : world) (k : nat) :
  is_dir (fs w) (tempdir w) = true ->
  (k < TMP_MAX w)%nat ->
  fs w !! (tempdir w ++ [candidate "py_temp_manager-" EmptyString w k]) = None ->
  well_formed (fs w) = true ->
  exists w',
    enter_then_exit w = (Ok tt, w')
    /\ fs w' = fs w
    /\ temp_dir (self w') = None
    /\ timer (self w') = None
    /\ timers w' = timers w ++ [{| interval := check_interval (self w);
                                   function := cb_remove_old_files;
                                   status := Cancelled |}].
Proof.
  intros Hdir Hk Hfree Hwf.
  destruct (enter_ok w k Hdir Hk Hfree) as (k' & _ & Hfree' & Hrun).
  destruct (exit_entered _ (S k') w Hwf Hfree')
    as (w' & Hexit & Hfs & Hd & Ht & Htimers).
  exists w'. split_and!; try done.
  unfold enter_then_exit. by rewrite (bind_Ok _ _ _ _ _ Hrun).
Qed.

Lemma enter_exit_round_trip_witness :
  exists w', enter_then_exit constructed = (Ok tt, w')
             /\ fs w' = fs constructed.
Proof.
  destruct (enter_exit_round_trip constructed 0) as (w' & Hrun & Hfs & _);
    [vm_compute; reflexivity | vm_compute; lia | vm_compute; reflexivity
    | vm_compute; reflexivity |].
  exists w'. split; [exact Hrun|exact Hfs].
Defined.

(** X4. [enter] has no guard against a second call. On an active manager it
    returns normally and replaces [temp_dir] and [timer]; the [exit] that
    follows removes the second directory only: the first directory is still
    on disk and the first timer object is as it was (still waiting, if it
    was), with nothing in the manager referring to either. *)
Theorem second_enter_leaks (w : world) (d0 : path) (id : nat) (t : Timer)
    (k : nat) :
  temp_dir (self w) = Some d0 ->
  is_dir (fs w) d0 = true ->
  timer (self w) = Some id ->
  timers w !! id = Some t ->
  is_dir (fs w) (tempdir w) = true ->
  (k < TMP_MAX w)%nat ->
  fs w !! (tempdir w ++ [candidate "py_temp_manager-" EmptyString w k]) = None ->
  well_formed (fs w) = true ->
  exists w1 w2 d1,
    enter w = (Ok tt, w1)
    /\ temp_dir (self w1) = Some d1
    /\ d1 <> d0
    /\ timer (self w1) <> Some id
    /\ exit w1 = (Ok tt, w2)
    /\ temp_dir (self w2) = None
    /\ timer (self w2) = None
    /\ is_dir (fs w2) d0 = true
    /\ timers w2 !! id = Some t.
Proof.
  intros Hd0 Hdir0 Hid Ht Hdir Hk Hfree Hwf.
  destruct (enter_ok w k Hdir Hk Hfree) as (k' & _ & Hfree' & Hrun).
  destruct (exit_entered _ (S k') w Hwf Hfree')
    as (w2 & Hexit & Hfs & Hd & Htm & Htimers).
  pose proof (lookup_lt_Some _ _ _ Ht) as Hlt.
  eexists _, w2, _. split_and!; [exact Hrun|done| | |exact Hexit|done|done| |].
  - intros Heq. apply is_dir_Some in Hdir0 as (i & Hi & _).
    rewrite <- Heq in Hi. congruence.
  - cbn. intros [= Heq]. lia.
  - by rewrite Hfs.
  - rewrite Htimers. by rewrite lookup_app_l.
Qed.

Lemma second_enter_leaks_witness :
  exists w1 w2 d1,
    enter busy = (Ok tt, w1)
    /\ temp_dir (self w1) = Some d1
    /\ d1 <> busy_dir
    /\ exit w1 = (Ok tt, w2)
    /\ is_dir (fs w2) busy_dir = true.
Proof.
  destruct (second_enter_leaks busy busy_dir 0
              {| interval := 60; function := cb_remove_old_files;
                 status := Waiting |} 0)
    as (w1 & w2 & d1 & Hrun & Hd1 & Hne & _ & Hexit & _ & _ & Hstill & _);
    [vm_compute; reflexivity .. | vm_compute; lia | vm_compute; reflexivity
    | vm_compute; reflexivity |].
  exists w1, w2, d1. by split_and!.
Defined.

(** ** What a sweep and a teardown may remove *)

Lemma removed_only_refl (Q : nat -> inode -> Prop) (d : path)
    (m : gmap path inode) : removed_only Q d m m.
Proof. intros p. by left. Qed.

Lemma removed_only_step (Q : nat -> inode -> Prop) (d : path) (n : string)
    (m m1 m' : gmap path inode) :
  m1 = m
  \/ (exists i, m !! (d ++ [n]) = Some i /\ st_mode i = S_IFREG /\ Q 0%nat i
                /\ m1 = delete (d ++ [n]) m) ->
  removed_only (fun k => Q (S k)) d m1 m' ->
  removed_only Q d m m'.
Proof.
  intros [->|(i & Hi & Hreg & HQ & ->)] Hrest p.
  - destruct (Hrest p) as [Heq|(Hnone & n' & i & k & Hp & Hi & Hreg & HQ)];
      [by left|right]. split; [done|]. by exists n', i, (S k).
  - destruct (Hrest p) as [Heq|(Hnone & n' & i' & k & Hp & Hi' & Hreg' & HQ')].
    + destruct (decide (p = d ++ [n])) as [->|Hne].
      * right. rewrite lookup_delete_eq in Heq. split; [done|].
        by exists n, i, 0%nat.
      * left. by rewrite lookup_delete_ne in Heq.
    + right. split; [done|]. exists n', i', (S k).
      apply lookup_delete_Some in Hi' as [_ Hi']. done.
Qed.

Lemma removed_listed_refl (Q : nat -> inode -> Prop) (d : path)
    (names : list string) (m : gmap path inode) : removed_listed Q d names m m.
Proof. intros p. by left. Qed.

Lemma removed_listed_step (Q : nat -> inode -> Prop) (d : path) (n : string)
    (names : list string) (m m1 m' : gmap path inode) :
  m1 = m
  \/ (exists i, m !! (d ++ [n]) = Some i /\ st_mode i = S_IFREG /\ Q 0%nat i
                /\ m1 = delete (d ++ [n]) m) ->
  removed_listed (fun k => Q (S k)) d names m1 m' ->
  removed_listed Q d (n :: names) m m'.
Proof.
  intros [->|(i & Hi & Hreg & HQ & ->)] Hrest p.
  - destruct (Hrest p) as [Heq|(Hnone & n' & i & k & Hk & Hp & Hi & Hreg & HQ)];
      [by left|right]. split; [done|]. by exists n', i, (S k).
  - destruct (Hrest p)
      as [Heq|(Hnone & n' & i' & k & Hk & Hp & Hi' & Hreg' & HQ')].
    + destruct (decide (p = d ++ [n])) as [->|Hne].
      * right. rewrite lookup_delete_eq in Heq. split; [done|].
        by exists n, i, 0%nat.
      * left. by rewrite lookup_delete_ne in Heq.
    + right. split; [done|]. exists n', i', (S k).
      apply lookup_delete_Some in Hi' as [_ Hi']. done.
Qed.

Lemma removed_listed_impl (Q Q' : nat -> inode -> Prop) (d : path)
    (names : list string) (m m' : gmap path inode) :
  (forall k i, Q k i -> Q' k i) ->
  removed_listed Q d names m m' -> removed_listed Q' d names m m'.
Proof.
  intros HQ H p.
  destruct (H p) as [Heq|(Hnone & n & i & k & Hk & Hp & Hi & Hreg & HQk)];
    [by left|right]. split; [done|]. exists n, i, k. split_and!; auto.
Qed.

(** One entry of the sweep: one reading of the clock, and at most the unlink
    of that entry, a regular file older than the retention. *)
Lemma remove_old_files_body_effect (p : path) (w : world) :
  let w' := (remove_old_files_body p w).2 in
  self w' = self w /\ clock w' = clock w /\ ticks w' = S (ticks w)
  /\ (fs w' = fs w
      \/ exists i, fs w !! p = Some i /\ st_mode i = S_IFREG
                   /\ now w - st_mtime i > remove_timeout (self w)
                   /\ fs w' = delete p (fs w)).
Proof.
  unfold remove_old_files_body, bind, time.time, os.stat, gets, now. fields.
  destruct (fs w !! p) as [i|] eqn:Hi;
    [|split_and!; [reflexivity..|left; reflexivity]].
  change (remove_timeout (self (set_ticks S w)))
    with (remove_timeout (self w)).
  destruct (_ >? _) eqn:Hgt;
    [|split_and!; [reflexivity..|left; reflexivity]].
  unfold os.unlink. fields. rewrite Hi.
  destruct (st_mode i) eqn:Hmode;
    [|split_and!; [reflexivity..|left; reflexivity]].
  split_and!; [reflexivity..|].
  right. exists i. split_and!; [done|done| |reflexivity].
  rewrite Z.gtb_ltb in Hgt. apply Z.ltb_lt in Hgt. lia.
Qed.

Lemma remove_old_files_loop_effect (d : path) (names : list string) (w : world) :
  let w' := (for_each remove_old_files_body
               (map (fun n => d ++ [n]) names) w).2 in
  self w' = self w
  /\ timers w' = timers w
  /\ removed_listed
       (fun k i => clock w (ticks w + k)%nat - st_mtime i
                   > remove_timeout (self w))
       d names (fs w) (fs w').
Proof.
  revert w. induction names as [|n names IH]; intros w.
  - cbn. split_and!; [done|done|apply removed_listed_refl].
  - cbn [map for_each]. unfold bind.
    pose proof (remove_old_files_body_effect (d ++ [n]) w) as Hbody.
    assert (timers (remove_old_files_body (d ++ [n]) w).2 = timers w) as Htm.
    { unfold remove_old_files_body, bind, time.time, os.stat, gets. fields.
      destruct (fs w !! (d ++ [n])) as [i|]; [|done].
      destruct (_ >? _); [|done]. unfold os.unlink. fields.
      destruct (fs w !! (d ++ [n])) as [[[] ? ?]|]; done. }
    destruct (remove_old_files_body (d ++ [n]) w) as [[[]|e] w1];
      cbn [snd] in *; destruct Hbody as (Hself & Hclock & Hticks & Hfs).
    + destruct (IH w1) as (Hself' & Htm' & Hrest).
      split_and!; [congruence|congruence|].
      apply (removed_listed_step _ d n names (fs w) (fs w1)).
      * destruct Hfs as [->|(i & Hi & Hreg & Hold & ->)]; [by left|right].
        exists i. unfold now in Hold. by rewrite Nat.add_0_r.
      * eapply removed_listed_impl; [|exact Hrest].
        intros k i. cbn beta. rewrite Hself, Hclock, Hticks.
        by rewrite Nat.add_succ_r.
    + split_and!; [done|done|].
      apply (removed_listed_step _ d n names (fs w) (fs w1)).
      * destruct Hfs as [->|(i & Hi & Hreg & Hold & ->)]; [by left|right].
        exists i. unfold now in Hold. by rewrite Nat.add_0_r.
      * apply removed_listed_refl.
Qed.

Lemma remove_old_files_unfold (w : world) :
  remove_old_files w =
    match temp_dir (self w) with
    | None => (Raise AttributeError, w)
    | Some d =>
        match fs w !! d with
        | None => (Raise FileNotFoundError, w)
        | Some i =>
            match st_mode i with
            | S_IFREG => (Raise NotADirectoryError, w)
            | S_IFDIR =>
                match for_each remove_old_files_body
                        (map (fun n => d ++ [n]) (children d (fs w))) w with
                | (Ok _, w1) => (Ok tt, rearmed w1)
                | (Raise e, w1) => (Raise e, w1)
                end
            end
        end
    end.
Proof.
  unfold remove_old_files, remove_old_files_loop, bind, get_temp_dir, iterdir,
    bind, os.listdir, ret.
  destruct (temp_dir (self w)) as [d|]; [|done].
  destruct (fs w !! d) as [[[] ? ?]|]; cbn [st_mode]; try done.
  destruct (for_each remove_old_files_body _ w) as [[[]|e] w1]; [|done].
  apply start_periodic_check_ok.
Qed.

(** X5. Whatever the state of the manager and of the disk, and however the
    sweep ends, [remove_old_files] never creates or changes an entry, and the
    only entries it removes are regular files directly inside [temp_dir] that
    the listing taken at the start of the sweep yields, each strictly older
    than [remove_timeout] at the reading of the clock taken for it: reading
    number [k] of the sweep for entry number [k] of the listing. [temp_dir]
    itself stays. *)
Theorem sweep_only_reaps_old_scratch_files (w : world) (p : path) :
  let w' := state_after remove_old_files w in
  temp_dir (self w') = temp_dir (self w)
  /\ (fs w' !! p = fs w !! p
      \/ (fs w' !! p = None
          /\ exists d n i k,
               temp_dir (self w) = Some d
               /\ children d (fs w) !! k = Some n
               /\ p = d ++ [n]
               /\ fs w !! p = Some i
               /\ st_mode i = S_IFREG
               /\ clock w (ticks w + k)%nat - st_mtime i
                  > remove_timeout (self w))).
Proof.
  unfold state_after. rewrite remove_old_files_unfold.
  destruct (temp_dir (self w)) as [d|] eqn:Hd; [|split; [done|by left]].
  destruct (fs w !! d) as [[[] ? ?]|]; cbn [st_mode];
    try (split; [done|by left]).
  destruct (remove_old_files_loop_effect d (children d (fs w)) w)
    as (Hself & _ & Hrest).
  destruct (for_each remove_old_files_body _ w) as [[[]|e] w1]; cbn [snd] in *.
  - unfold rearmed. cbn [snd]. fields. split; [by rewrite Hself|].
    destruct (Hrest p) as [Heq|(Hnone & n & i & k & Hk & Hp & Hi & Hreg & Hold)];
      [by left|right]. split; [done|]. by exists d, n, i, k.
  - split; [by rewrite Hself|].
    destruct (Hrest p) as [Heq|(Hnone & n & i & k & Hk & Hp & Hi & Hreg & Hold)];
      [by left|right]. split; [done|]. by exists d, n, i, k.
Qed.

Lemma remove_temp_dir_loop_effect (d : path) (names : list string) (w : world) :
  let w' := (for_each remove_temp_dir_body
               (map (fun n => d ++ [n]) names) w).2 in
  self w' = self w
  /\ timers w' = timers w
  /\ removed_only (fun _ _ => True) d (fs w) (fs w').
Proof.
  revert w. induction names as [|n names IH]; intros w.
  - cbn. split_and!; [done|done|apply removed_only_refl].
  - cbn [map for_each]. unfold bind.
    assert (let w1 := (remove_temp_dir_body (d ++ [n]) w).2 in
            self w1 = self w /\ timers w1 = timers w
            /\ (fs w1 = fs w
                \/ exists i, fs w !! (d ++ [n]) = Some i /\ st_mode i = S_IFREG
                             /\ True /\ fs w1 = delete (d ++ [n]) (fs w)))
      as Hbody.
    { unfold remove_temp_dir_body, bind, os.unlink.
      destruct (fs w !! (d ++ [n])) as [i|] eqn:Hi;
        [|split_and!; [reflexivity..|left; reflexivity]].
      destruct (st_mode i) eqn:Hmode;
        [|split_and!; [reflexivity..|left; reflexivity]].
      split_and!; [reflexivity..|]. right. by exists i. }
    destruct (remove_temp_dir_body (d ++ [n]) w) as [[[]|e] w1];
      cbn [snd] in *; destruct Hbody as (Hself & Htm & Hfs).
    + destruct (IH w1) as (Hself' & Htm' & Hrest).
      split_and!; [congruence|congruence|].
      by apply (removed_only_step _ d n (fs w) (fs w1)).
    + split_and!; [done|done|].
      apply (removed_only_step _ d n (fs w) (fs w1)); [done|].
      apply removed_only_refl.
Qed.

Lemma remove_temp_dir_effect (w w' : world) (r : outcome unit) (d : path) :
  remove_temp_dir w = (r, w') ->
  temp_dir (self w) = Some d ->
  exists m1,
    removed_only (fun _ _ => True) d (fs w) m1
    /\ (fs w' = m1 \/ fs w' = delete d m1).
Proof.
  intros Hrun Hd. revert Hrun.
  unfold remove_temp_dir, bind at 1. unfold get_temp_dir at 1. rewrite Hd.
  unfold bind at 1. unfold iterdir, bind at 1, os.listdir.
  destruct (fs w !! d) as [[[] ? ?]|]; cbn [st_mode].
  - intros [= <- <-]. exists (fs w). split; [apply removed_only_refl|by left].
  - unfold ret, bind at 1.
    destruct (remove_temp_dir_loop_effect d (children d (fs w)) w)
      as (Hself & _ & Hrest).
    destruct (for_each remove_temp_dir_body _ w) as [[[]|e] w1];
      cbn [snd] in *.
    + exists (fs w1). split; [done|]. revert Hrun.
      unfold bind at 1. unfold get_temp_dir. rewrite Hself, Hd.
      unfold bind at 1. unfold os.rmdir.
      destruct (fs w1 !! d) as [[[] ? ?]|]; cbn [st_mode].
      * intros [= <- <-]. by left.
      * destruct (children d (fs w1)).
        -- unfold bind, gets, logger.info, modify. intros [= <- <-].
           by right.
        -- intros [= <- <-]. by left.
      * intros [= <- <-]. by left.
    + intros [= <- <-]. exists (fs w1). split; [done|by left].
  - intros [= <- <-]. exists (fs w). split; [apply removed_only_refl|by left].
Qed.

(** X6. Whatever the state of the manager and of the disk, and however it
    ends, [exit] never creates or changes an entry, and the only entries it
    removes are [temp_dir] itself and regular files directly inside it. *)
Theorem teardown_only_removes_scratch (w : world) (p : path) :
  let w' := state_after exit w in
  fs w' !! p = fs w !! p
  \/ (fs w' !! p = None
      /\ exists d,
           temp_dir (self w) = Some d
           /\ (p = d
               \/ exists n i,
                    p = d ++ [n] /\ fs w !! p = Some i /\ st_mode i = S_IFREG)).
Proof.
  unfold state_after.
  destruct (stopped_fields w) as (Hfs & Hd & _).
  destruct (exit w) as [r w'] eqn:Hrun. cbn [snd]. revert Hrun.
  unfold exit. rewrite (bind_Ok _ _ w w (timer (self w))) by done.
  rewrite (bind_Ok _ _ w (stopped w) tt) by apply exit_stops_first.
  rewrite (bind_Ok _ _ _ (stopped w) (temp_dir (self (stopped w)))) by done.
  rewrite Hd. destruct (temp_dir (self w)) as [d|] eqn:Hd0.
  - intros Hrun.
    destruct (remove_temp_dir_effect _ _ _ d Hrun ltac:(by rewrite Hd))
      as (m1 & Hrest & Hlast).
    rewrite Hfs in Hrest.
    assert (m1 !! p = fs w !! p
            \/ (m1 !! p = None
                /\ exists n i, p = d ++ [n] /\ fs w !! p = Some i
                               /\ st_mode i = S_IFREG)) as Hm1.
    { destruct (Hrest p) as [Heq|(Hnone & n & i & _ & Hp & Hi & Hreg & _)];
        [by left|right]. split; [done|]. by exists n, i. }
    destruct Hlast as [->| ->].
    + destruct Hm1 as [Heq|[Hnone Hex]]; [by left|right].
      split; [done|]. exists d. split; [done|by right].
    + destruct (decide (p = d)) as [->|Hne].
      * destruct (fs w !! d) eqn:Hthere; [right|left].
        -- split; [apply lookup_delete_eq|]. exists d. split; [done|by left].
        -- by rewrite lookup_delete_eq.
      * rewrite lookup_delete_ne by done.
        destruct Hm1 as [Heq|[Hnone Hex]]; [by left|right].
        split; [done|]. exists d. split; [done|by right].
  - intros [= <- <-]. left. by rewrite Hfs.
Qed.

(** ** What a request may create *)

Lemma resolve_create_fresh (m : gmap path inode) (d : path) (file : string)
    (p : path) :
  resolve_create m d file = Ok p -> m !! p = None.
Proof.
  unfold resolve_create. destruct (last (split_sep file)) as [l|]; [|done].
  destruct (decide (l = "")).
  - by destruct (walk _ _ _).
  - destruct (walk _ _ _) as [parent|]; [|done].
    destruct (decide (l = "." \/ l = "..")); [done|].
    destruct (_ <? _)%nat; [done|].
    destruct (m !! (parent ++ [l])) eqn:E; [done|]. by intros [= <-].
Qed.

Lemma mkstemp_inner_effect (n : nat) (d : path) (pre suf : string)
    (w w' : world) (r : outcome string) :
  tempfile.mkstemp_inner n d pre suf w = (r, w') ->
  match r with
  | Ok _ => exists q, fs w !! q = None
                      /\ fs w' = <[q := file_inode (now w)]> (fs w)
  | Raise _ => fs w' = fs w
  end.
Proof.
  revert w. induction n as [|n IH]; intros w.
  - cbn [tempfile.mkstemp_inner]. by intros [= <- <-].
  - cbn [tempfile.mkstemp_inner].
    unfold bind at 1, tempfile.next_name at 1, try_except, bind, os.open_excl.
    fields.
    destruct (has_nul _); [by intros [= <- <-]|].
    destruct (resolve_create (fs w) d _) as [q|e] eqn:Hres.
    + unfold ret. intros [= <- <-]. exists q. split; [|done].
      by apply resolve_create_fresh in Hres.
    + destruct (decide (e = FileExistsError)).
      * intros Hrun. apply IH in Hrun. exact Hrun.
      * by intros [= <- <-].
Qed.

(** X7. Whatever the prefix, the suffix and the state of the manager: a call
    of [request_temp_file] that returns has created exactly one entry, an
    empty regular file stamped with the current time, at a path where nothing
    existed, and has changed no other entry; a call that raises has left the
    file system as it was. *)
Theorem request_creates_one_new_file_or_nothing
    (prefix suffix : option string) (w w' : world) (r : outcome string) :
  request_temp_file prefix suffix w = (r, w') ->
  match r with
  | Ok _ =>
      exists q,
        fs w !! q = None
        /\ fs w' = <[q := {| st_mode := S_IFREG; st_mtime := now w;
                             st_size := 0 |}]> (fs w)
  | Raise _ => fs w' = fs w
  end.
Proof.
  rewrite request_temp_file_unfold. apply mkstemp_inner_effect.
Qed.

Lemma request_creates_one_new_file_or_nothing_witness :
  match result_of (request_temp_file (Some "../") None) busy with
  | Ok _ =>
      exists q,
        fs busy !! q = None
        /\ fs (state_after (request_temp_file (Some "../") None) busy)
           = <[q := file_inode (now busy)]> (fs busy)
  | Raise _ =>
      fs (state_after (request_temp_file (Some "../") None) busy) = fs busy
  end.
Proof.
  apply (request_creates_one_new_file_or_nothing (Some "../") None busy).
  unfold result_of, state_after.
  by destruct (request_temp_file (Some "../") None busy).
Defined.

(** ** A request that fails *)




(** The longest prefix that still fits has 247 bytes. *)
Example name_length_limit :
  fits (Some long_prefix) None = false
  /\ fits (Some (String.substring 1 247 long_prefix)) None = true
  /\ (exists s, result_of (request_temp_file
                            (Some (String.substring 1 247 long_prefix)) None)
                  busy = Ok s)
  /\ fs (state_after (request_temp_file (Some long_prefix) None) busy) = fs busy.
Proof.
  split_and!; [vm_compute; reflexivity..| |vm_compute; reflexivity].
  eexists. vm_compute. reflexivity.
Qed.

(** ** The chain of timers *)

(** X9. When the one waiting timer fires on an active manager whose scratch
    directory holds regular files, the sweep runs to its end: the fired timer
    is done, a new timer for [check_interval] is waiting and is the manager's
    [timer], and it is again the only waiting timer. *)
Theorem timer_fires_and_rearms (w : world) (d : path) (id : nat) (t : Timer) :
  temp_dir (self w) = Some d ->
  is_dir (fs w) d = true ->
  only_files d (fs w) = true ->
  timers w !! id = Some t ->
  status t = Waiting ->
  function t = cb_remove_old_files ->
  (forall j t', timers w !! j = Some t' -> status t' = Waiting -> j = id) ->
  exists w',
    Timer_run id w = (Ok tt, w')
    /\ timers w' !! id = Some (threading.set_status Done t)
    /\ timer (self w') = Some (length (timers w))
    /\ timers w' !! length (timers w)
       = Some {| interval := check_interval (self w);
                 function := cb_remove_old_files;
                 status := Waiting |}
    /\ (forall j t', timers w' !! j = Some t' -> status t' = Waiting ->
                     j = length (timers w))
    /\ temp_dir (self w') = Some d.
Proof.
  intros Hd Hdir Hfiles Ht Hwait Hfun Honly.
  pose proof (lookup_lt_Some _ _ _ Ht) as Hlt.
  set (w1 := set_timers (alter (threading.set_status Running) id) w).
  set (l1 := alter (threading.set_status Running) id (timers w)).
  assert (length l1 = length (timers w)) as Hlen by apply length_alter.
  set (ns := {| interval := check_interval (self w);
                function := cb_remove_old_files; status := Waiting |}).
  exists (set_timers (alter (threading.set_status Done) id)
            (rearmed (swept d (children d (fs w1)) w1))).
  assert (timers (set_timers (alter (threading.set_status Done) id)
                    (rearmed (swept d (children d (fs w1)) w1)))
          = alter (threading.set_status Done) id (l1 ++ [ns])) as Htimers
    by done.
  split_and!.
  - unfold Timer_run. rewrite Ht, Hwait, Hfun.
    unfold bind at 1, modify at 1. fold w1. cbn [call].
    by rewrite (bind_Ok _ _ w1 (rearmed (swept d (children d (fs w1)) w1)) tt)
      by by apply (remove_old_files_ok d w1).
  - rewrite Htimers, list_lookup_alter_eq, lookup_app_l by lia.
    unfold l1. by rewrite list_lookup_alter_eq, Ht.
  - change (Some (length l1) = Some (length (timers w))). by rewrite Hlen.
  - rewrite Htimers, list_lookup_alter_ne by lia.
    rewrite <- Hlen. by rewrite list_lookup_middle.
  - intros j t' Hj Hw. rewrite Htimers in Hj.
    destruct (decide (id = j)) as [<-|Hne].
    + rewrite list_lookup_alter_eq, lookup_app_l in Hj by lia.
      unfold l1 in Hj. rewrite list_lookup_alter_eq, Ht in Hj.
      injection Hj as <-. done.
    + rewrite list_lookup_alter_ne in Hj by done.
      apply lookup_snoc_Some in Hj as [[Hj1 Hj2]|[Hj1 Hj2]]; [|lia].
      unfold l1 in Hj2. rewrite list_lookup_alter_ne in Hj2 by done.
      destruct Hne. symmetry. eauto.
  - done.
Qed.

Lemma timer_fires_and_rearms_witness :
  exists w', Timer_run 0 busy = (Ok tt, w')
             /\ timer (self w') = Some (length (timers busy)).
Proof.
  assert (timers busy = [{| interval := 60; function := cb_remove_old_files;
                            status := Waiting |}]) as Htimers
    by (vm_compute; reflexivity).
  destruct (timer_fires_and_rearms busy busy_dir 0
              {| interval := 60; function := cb_remove_old_files;
                 status := Waiting |})
    as (w' & Hrun & _ & Ht & _);
    [vm_compute; reflexivity .. | reflexivity | reflexivity | |].
  - intros j t' Hj Hw. rewrite Htimers in Hj.
    destruct j as [|j]; [reflexivity|]. destruct j; discriminate Hj.
  - exists w'. split; [exact Hrun|exact Ht].
Defined.

(** X10. After a teardown that went through, the timer the manager had does
    not sweep: when it fires, nothing happens. *)
Theorem cancelled_timer_does_not_sweep (w : world) (d : path) (id : nat) :
  temp_dir (self w) = Some d ->
  is_dir (fs w) d = true ->
  only_files d (fs w) = true ->
  timer (self w) = Some id ->
  exists w', exit w = (Ok tt, w') /\ Timer_run id w' = (Ok tt, w').
Proof.
  intros Hd Hdir Hfiles Ht. eexists. split; [by apply (exit_ok d)|].
  unfold Timer_run.
  assert (timers (without_temp_dir d (stopped w))
          = alter cancelled id (timers w)) as ->
    by (unfold stopped; by rewrite Ht).
  destruct (alter cancelled id (timers w) !! id) as [t'|] eqn:Hl; [|done].
  apply lookup_alter_cancelled_not_waiting in Hl.
  by destruct (status t').
Qed.

Lemma cancelled_timer_does_not_sweep_witness :
  exists w', exit busy = (Ok tt, w') /\ Timer_run 0 w' = (Ok tt, w').
Proof.
  apply (cancelled_timer_does_not_sweep busy busy_dir 0);
    vm_compute; reflexivity.
Defined.

(** ** A file just issued and the next sweep *)

Lemma length_children_insert (d : path) (f : string) (i : inode)
    (m : gmap path inode) :
  m !! (d ++ [f]) = None ->
  length (children d (<[d ++ [f] := i]> m)) = S (length (children d m)).
Proof.
  intros Hnew.
  assert (children d (<[d ++ [f] := i]> m) ≡ₚ f :: children d m) as ->.
  { apply NoDup_Permutation.
    - apply NoDup_children.
    - apply NoDup_cons. split; [|apply NoDup_children].
      rewrite elem_of_children, Hnew. by intros [? ?].
    - intros x. rewrite elem_of_cons, !elem_of_children.
      rewrite lookup_insert_is_Some. split.
      + intros [Heq|[_ Hx]]; [left|by right]. symmetry. by apply child_inj in Heq.
      + intros [->|Hx]; [by left|].
        destruct (decide (d ++ [f] = d ++ [x])); [by left|by right]. }
  done.
Qed.

(** X11. A file that [request_temp_file] has just issued outlives the sweep
    that follows, provided the retention has not run out when that sweep
    takes its last reading of the clock: on an active manager whose scratch
    directory holds regular files, with decorations that hold no separator
    and no NUL byte and are short enough for a file name, a free candidate
    name and a clock that does not run backwards, request and sweep both
    return and the new file is still there, empty. *)
Theorem fresh_file_survives_sweep (w : world) (d : path)
    (prefix suffix : option string) (k : nat) :
  temp_dir (self w) = Some d ->
  is_dir (fs w) d = true ->
  only_files d (fs w) = true ->
  plain prefix = true ->
  plain suffix = true ->
  fits prefix suffix = true ->
  (k < TMP_MAX w)%nat ->
  fs w !! (d ++ [candidate (default "tmp" prefix)
                   (default EmptyString suffix) w k]) = None ->
  monotone (clock w) ->
  clock w (ticks w + 1 + length (children d (fs w)))%nat - now w
    <= remove_timeout (self w) ->
  exists f s w1 w2,
    request_temp_file prefix suffix w = (Ok s, w1)
    /\ s = join (fspath d) f
    /\ remove_old_files w1 = (Ok tt, w2)
    /\ fs w2 !! (d ++ [f]) = Some {| st_mode := S_IFREG; st_mtime := now w;
                                     st_size := 0 |}.
Proof.
  intros Hd Hdir Hfiles Hp Hs Hfits Hk Hfree Hmono Hwithin.
  pose proof (request_temp_file_plain prefix suffix w) as Hreq.
  rewrite Hd in Hreq. change (default (tempdir w) (Some d)) with d in Hreq.
  destruct (Hreq Hdir Hp Hs Hfits) as [(k' & _ & Hfree' & Hrun)|[Hbusy _]].
  2:{ destruct (Hbusy k Hk) as [i Hi]. congruence. }
  set (f := candidate (default "tmp" prefix) (default EmptyString suffix) w k')
    in *.
  set (w1 := created d f (S k') w) in *.
  destruct (created_fields d f (S k') w) as [Hfs1 Hself1]. fold w1 in Hfs1, Hself1.
  assert (is_dir (fs w1) d = true) as Hdir1
    by (rewrite Hfs1; by apply is_dir_insert_child).
  assert (only_files d (fs w1) = true) as Hfiles1.
  { apply only_files_spec. intros n i. rewrite Hfs1.
    intros [[_ <-]|[_ Hold]]%lookup_insert_Some; [done|].
    by apply (proj1 (only_files_spec d (fs w)) Hfiles n). }
  assert (f ∈ children d (fs w1)) as [k0 Hk0]%list_elem_of_lookup_1.
  { apply elem_of_children. rewrite Hfs1, lookup_insert_eq. eauto. }
  pose proof (lookup_lt_Some _ _ _ Hk0) as Hlt.
  rewrite Hfs1, length_children_insert in Hlt by done.
  exists f, (join (fspath d) f), w1, (rearmed (swept d (children d (fs w1)) w1)).
  split_and!; [done|done|apply remove_old_files_ok; by rewrite ?Hself1|].
  change (fs (swept d (children d (fs w1)) w1) !! (d ++ [f])
          = Some (file_inode (now w))).
  rewrite (lookup_swept d _ w1 k0 f (file_inode (now w)));
    [|apply NoDup_children|done|by rewrite Hfs1, lookup_insert_eq].
  pose proof (Hmono (S (ticks w) + k0)%nat
                (ticks w + 1 + length (children d (fs w)))%nat ltac:(lia))
    as Hle.
  change (clock w1) with (clock w). change (ticks w1) with (S (ticks w)).
  rewrite Hself1. cbn [st_mtime file_inode].
  destruct (Z.gtb_spec (clock w (S (ticks w) + k0)%nat - now w)
              (remove_timeout (self w))) as [Hgt|_]; [lia|done].
Qed.

Lemma fresh_file_survives_sweep_witness :
  exists f s w1 w2,
    request_temp_file None (Some ".jpg") busy = (Ok s, w1)
    /\ remove_old_files w1 = (Ok tt, w2)
    /\ is_file (fs w2) (busy_dir ++ [f]) = true.
Proof.
  destruct (fresh_file_survives_sweep busy busy_dir None (Some ".jpg") 0)
    as (f & s & w1 & w2 & Hreq & _ & Hsweep & Hthere).
  - vm_compute; reflexivity.
  - vm_compute; reflexivity.
  - vm_compute; reflexivity.
  - reflexivity.
  - reflexivity.
  - vm_compute; reflexivity.
  - vm_compute; lia.
  - vm_compute; reflexivity.
  - intros i j Hij. change (1000 + Z.of_nat i <= 1000 + Z.of_nat j). lia.
  - vm_compute. discriminate.
  - exists f, s, w1, w2. split_and!; [exact Hreq|exact Hsweep|].
    unfold is_file. by rewrite Hthere.
Defined.

(** ** The capture callbacks *)

(** X12. The capture callbacks obtain their output file before they look the
    camera up. On an active manager with a free candidate name, a callback
    given a key that is not in [camera_dic] ends with [KeyError] after an
    empty file with the callback's suffix was created in the scratch
    directory, and the capture function is not called; given a known key,
    the capture function is called with the path of that new file and its
    outcome is the callback's. *)
Theorem capture_callbacks_request_first (Camera : Type)
    (capture_image : string -> Camera -> world -> app_outcome string * world)
    (capture_video : string -> Camera -> Z -> world -> app_outcome string * world)
    (camera_dic : gmap string Camera) (camera_key : string) (video_length : Z)
    (w : world) (d : path) (k : nat) :
  temp_dir (self w) = Some d ->
  is_dir (fs w) d = true ->
  (k < TMP_MAX w)%nat ->
  fs w !! (d ++ [candidate "tmp" ".jpg" w k]) = None ->
  fs w !! (d ++ [candidate "tmp" ".mp4" w k]) = None ->
  (exists r w1,
     let f := "tmp" +:+ r +:+ ".jpg" in
     fs w !! (d ++ [f]) = None
     /\ fs w1 = <[d ++ [f] := file_inode (now w)]> (fs w)
     /\ capture_image_api Camera capture_image camera_dic camera_key w =
          match camera_dic !! camera_key with
          | None => (KeyError camera_key, w1)
          | Some camera => capture_image (join (fspath d) f) camera w1
          end)
  /\ (exists r w1,
        let f := "tmp" +:+ r +:+ ".mp4" in
        fs w !! (d ++ [f]) = None
        /\ fs w1 = <[d ++ [f] := file_inode (now w)]> (fs w)
        /\ capture_video_api Camera capture_video camera_dic camera_key
             video_length w =
             match camera_dic !! camera_key with
             | None => (KeyError camera_key, w1)
             | Some camera =>
                 capture_video (join (fspath d) f) camera video_length w1
             end).
Proof.
  intros Hd Hdir Hk Hjpg Hmp4. split.
  - pose proof (request_temp_file_plain None (Some ".jpg") w) as Hreq.
    rewrite Hd in Hreq. change (default (tempdir w) (Some d)) with d in Hreq.
    destruct (Hreq Hdir eq_refl eq_refl eq_refl)
      as [(k' & _ & Hfree & Hrun)|[Hbusy _]].
    + exists (tempfile.choices 8 (rand w (draws w + k'))),
        (created d (candidate "tmp" ".jpg" w k') (S k') w).
      cbv zeta. split_and!; [exact Hfree|reflexivity|].
      unfold capture_image_api. by rewrite Hrun.
    + destruct (Hbusy k Hk) as [i Hi].
      change (fs w !! (d ++ [candidate "tmp" ".jpg" w k]) = Some i) in Hi.
      congruence.
  - pose proof (request_temp_file_plain None (Some ".mp4") w) as Hreq.
    rewrite Hd in Hreq. change (default (tempdir w) (Some d)) with d in Hreq.
    destruct (Hreq Hdir eq_refl eq_refl eq_refl)
      as [(k' & _ & Hfree & Hrun)|[Hbusy _]].
    + exists (tempfile.choices 8 (rand w (draws w + k'))),
        (created d (candidate "tmp" ".mp4" w k') (S k') w).
      cbv zeta. split_and!; [exact Hfree|reflexivity|].
      unfold capture_video_api. by rewrite Hrun.
    + destruct (Hbusy k Hk) as [i Hi].
      change (fs w !! (d ++ [candidate "tmp" ".mp4" w k]) = Some i) in Hi.
      congruence.
Qed.

Lemma capture_callbacks_request_first_witness :
  exists r w1,
    capture_image_api unit (fun s _ w => (Returned s, w)) ∅ "no such camera" busy
    = (KeyError "no such camera", w1)
    /\ is_file (fs w1) (busy_dir ++ ["tmp" +:+ r +:+ ".jpg"]) = true.
Proof.
  destruct (capture_callbacks_request_first unit (fun s _ w => (Returned s, w))
              (fun s _ _ w => (Returned s, w)) ∅ "no such camera" 15
              busy busy_dir 0)
    as [(r & w1 & Hnew & Hfs & Hrun) _];
    [vm_compute; reflexivity | vm_compute; reflexivity | vm_compute; lia
    | vm_compute; reflexivity | vm_compute; reflexivity |].
  exists r, w1. split; [exact Hrun|].
  unfold is_file. by rewrite Hfs, lookup_insert_eq.
Defined.

(** ** Sessions *)

Lemma swept_keeps (d : path) (names : list string) (w : world) (p : path)
    (i : inode) :
  fs (swept d names w) !! p = Some i -> fs w !! p = Some i.
Proof.
  unfold swept. fields. unfold unlink_all.
  generalize (reaped (remove_timeout (self w)) (clock w) (ticks w) d (fs w) names).
  intros l. generalize (fs w). induction l as [|n l IH]; intros m; [done|].
  cbn [foldl]. intros H%IH. by apply lookup_delete_Some in H as [_ H].
Qed.

Lemma swept_keeps_dir (d : path) (names : list string) (w : world) :
  fs (swept d names w) !! d = fs w !! d.
Proof.
  unfold swept. fields. apply lookup_unlink_all_ne.
  intros n _ Heq. symmetry in Heq. by apply child_ne_parent in Heq.
Qed.

Lemma Timer_run_healthy (d : path) (w : world) (id : nat) :
  healthy d w ->
  timer (self w) = Some id ->
  healthy d (state_after (Timer_run id) w).
Proof.
  intros (Hd & Hdir & Hfiles & id' & t & Hid & Ht & Hwait & Hfun & Honly) Hid'.
  assert (id' = id) as -> by congruence.
  pose proof (lookup_lt_Some _ _ _ Ht) as Hlt.
  set (w1 := set_timers (alter (threading.set_status Running) id) w).
  set (l1 := alter (threading.set_status Running) id (timers w)).
  assert (length l1 = length (timers w)) as Hlen by apply length_alter.
  set (w2 := set_timers (alter (threading.set_status Done) id)
               (rearmed (swept d (children d (fs w1)) w1))).
  assert (Timer_run id w = (Ok tt, w2)) as Hrun.
  { unfold Timer_run. rewrite Ht, Hwait, Hfun.
    unfold bind at 1, modify at 1. fold w1. cbn [call].
    by rewrite (bind_Ok _ _ w1 (rearmed (swept d (children d (fs w1)) w1)) tt)
      by by apply (remove_old_files_ok d w1). }
  unfold state_after. rewrite Hrun. cbn [snd].
  assert (timers w2 = alter (threading.set_status Done) id (l1 ++ [next_sweep w]))
    as Htimers by done.
  split_and!.
  - done.
  - unfold is_dir.
    change (fs w2) with (fs (swept d (children d (fs w1)) w1)).
    by rewrite swept_keeps_dir.
  - apply only_files_spec. intros n i Hi.
    change (fs w2) with (fs (swept d (children d (fs w1)) w1)) in Hi.
    apply swept_keeps in Hi.
    by apply (proj1 (only_files_spec d (fs w)) Hfiles n).
  - exists (length (timers w)), (next_sweep w). split_and!.
    + change (Some (length l1) = Some (length (timers w))). by rewrite Hlen.
    + rewrite Htimers, list_lookup_alter_ne by lia.
      rewrite <- Hlen. by rewrite list_lookup_middle.
    + done.
    + done.
    + intros j t' Hj Hw. rewrite Htimers in Hj.
      destruct (decide (id = j)) as [<-|Hne].
      * rewrite list_lookup_alter_eq, lookup_app_l in Hj by lia.
        unfold l1 in Hj. rewrite list_lookup_alter_eq, Ht in Hj.
        injection Hj as <-. done.
      * rewrite list_lookup_alter_ne in Hj by done.
        apply lookup_snoc_Some in Hj as [[Hj1 Hj2]|[Hj1 Hj2]]; [|lia].
        unfold l1 in Hj2. rewrite list_lookup_alter_ne in Hj2 by done.
        destruct Hne. symmetry. eauto.
Qed.

Lemma request_healthy (d : path) (w : world) (prefix suffix : option string) :
  healthy d w ->
  plain prefix = true ->
  plain suffix = true ->
  healthy d (state_after (request_temp_file prefix suffix) w).
Proof.
  intros (Hd & Hdir & Hfiles & Htimer) Hp Hs.
  unfold state_after.
  destruct (fits prefix suffix) eqn:Hfits.
  2:{ pose proof (request_temp_file_unfit_raises prefix suffix w) as Hreq.
      rewrite Hd in Hreq. change (default (tempdir w) (Some d)) with d in Hreq.
      destruct (Hreq Hdir Hp Hs Hfits) as (e & w1 & -> & Hfs & Hself & Htm).
      cbn [snd]. unfold healthy. by rewrite Hfs, Hself, Htm. }
  pose proof (request_temp_file_plain prefix suffix w) as Hreq.
  rewrite Hd in Hreq. change (default (tempdir w) (Some d)) with d in Hreq.
  destruct (Hreq Hdir Hp Hs Hfits) as [(k & _ & Hfree & ->)|[_ ->]]; cbn [snd].
  - set (f := candidate (default "tmp" prefix) (default EmptyString suffix) w k).
    destruct (created_fields d f (S k) w) as [Hfs1 Hself1].
    split_and!; [by rewrite Hself1| | |done].
    + rewrite Hfs1. by apply is_dir_insert_child.
    + apply only_files_spec. intros n i. rewrite Hfs1.
      intros [[_ <-]|[_ Hold]]%lookup_insert_Some; [done|].
      by apply (proj1 (only_files_spec d (fs w)) Hfiles n).
  - by split_and!.
Qed.

Lemma session_healthy (d : path) (events : list event) (w : world) :
  healthy d w ->
  forallb plain_event events = true ->
  healthy d (session events w).
Proof.
  revert w. induction events as [|e events IH]; intros w Hw Hplain; [done|].
  cbn [forallb] in Hplain. apply andb_prop in Hplain as [He Hplain].
  unfold session. cbn [foldl]. apply IH; [|done].
  destruct e as [prefix suffix|]; cbn [handle].
  - cbn [plain_event] in He. apply andb_prop in He as [Hp Hs].
    by apply request_healthy.
  - destruct Hw as (Hd & Hdir & Hfiles & id & t & Hid & Hrest).
    rewrite Hid. apply Timer_run_healthy; [|done].
    split_and!; [done..|]. by exists id, t.
Qed.

Lemma enter_healthy (w : world) (k : nat) :
  is_dir (fs w) (tempdir w) = true ->
  (k < TMP_MAX w)%nat ->
  fs w !! (tempdir w ++ [candidate "py_temp_manager-" EmptyString w k]) = None ->
  well_formed (fs w) = true ->
  (forall t, t ∈ timers w -> status t <> Waiting) ->
  exists d, healthy d (state_after enter w).
Proof.
  intros Hdir Hk Hfree Hwf Hnone.
  destruct (enter_ok w k Hdir Hk Hfree) as (k' & _ & Hfree' & Hrun).
  unfold state_after. rewrite Hrun. cbn [snd].
  set (f := candidate "py_temp_manager-" EmptyString w k') in *.
  destruct (entered_fields f (S k') w) as (Hfs & Hd & Ht & Htimers & _).
  exists (tempdir w ++ [f]). split_and!.
  - done.
  - unfold is_dir. by rewrite Hfs, lookup_insert_eq.
  - unfold only_files. by rewrite entered_scratch_empty.
  - exists (length (timers w)), (next_sweep w). split_and!; [done| |done|done|].
    + rewrite Htimers. by rewrite list_lookup_middle.
    + intros j t' Hj Hw. rewrite Htimers in Hj.
      apply lookup_snoc_Some in Hj as [[Hj1 Hj2]|[Hj1 Hj2]]; [|done].
      destruct (Hnone t'); [|done]. by eapply list_elem_of_lookup_2.
Qed.

(** X13. The whole life of the manager in [main.py]. Once [enter] has
    returned on a well-formed file system with no timer waiting, any sequence
    of requests with plain decorations (whether they succeed or not) and of
    firings of the manager's timer leaves the manager active on the same
    directory, holding regular files only, with exactly one timer waiting;
    the [exit] that ends the session therefore returns normally, removes the
    directory and leaves no timer waiting. *)
Theorem session_ends_clean (w : world) (k : nat) (events : list event) :
  is_dir (fs w) (tempdir w) = true ->
  (k < TMP_MAX w)%nat ->
  fs w !! (tempdir w ++ [candidate "py_temp_manager-" EmptyString w k]) = None ->
  well_formed (fs w) = true ->
  (forall t, t ∈ timers w -> status t <> Waiting) ->
  forallb plain_event events = true ->
  exists d w',
    temp_dir (self (state_after enter w)) = Some d
    /\ healthy d (session events (state_after enter w))
    /\ exit (session events (state_after enter w)) = (Ok tt, w')
    /\ fs w' !! d = None
    /\ (forall n, fs w' !! (d ++ [n]) = None)
    /\ temp_dir (self w') = None
    /\ no_sweep_pending w'.
Proof.
  intros Hdir Hk Hfree Hwf Hnone Hplain.
  destruct (enter_healthy w k Hdir Hk Hfree Hwf Hnone) as [d Hstart].
  pose proof (session_healthy d events _ Hstart Hplain) as Hend.
  set (w1 := session events (state_after enter w)) in *.
  destruct Hend as (Hd & Hdir1 & Hfiles & id & t & Hid & Ht & _ & _ & Honly).
  exists d, (without_temp_dir d (stopped w1)).
  split_and!.
  - by destruct Hstart as [? _].
  - split_and!; [done..|]. exists id, t.
    destruct (session_healthy d events _ Hstart Hplain)
      as (_ & _ & _ & id' & t' & Hid' & Ht' & Hw' & Hf' & Ho').
    fold w1 in Hid', Ht', Ho'.
    assert (id' = id) as -> by congruence.
    assert (t' = t) as -> by congruence. done.
  - by apply exit_ok.
  - cbn [without_temp_dir]. fields. apply lookup_delete_eq.
  - intros n. unfold without_temp_dir. fields.
    destruct (stopped_fields w1) as (-> & _).
    rewrite lookup_delete_ne by (symmetry; apply child_ne_parent).
    apply lookup_unlink_all_children.
  - done.
  - intros t' [j Hj]%list_elem_of_lookup_1 Hw.
    assert (timers (without_temp_dir d (stopped w1))
            = alter cancelled id (timers w1)) as Htm
      by (unfold stopped; by rewrite Hid).
    rewrite Htm in Hj.
    destruct (decide (j = id)) as [->|Hne].
    + by apply lookup_alter_cancelled_not_waiting in Hj.
    + rewrite list_lookup_alter_ne in Hj by done. apply Hne. eauto.
Qed.

Lemma session_ends_clean_witness :
  exists d w',
    exit (session [Request None (Some ".jpg"); TimerFires;
                   Request None (Some ".mp4"); TimerFires]
            (state_after enter constructed)) = (Ok tt, w')
    /\ fs w' !! d = None
    /\ temp_dir (self w') = None.
Proof.
  destruct (session_ends_clean constructed 0
              [Request None (Some ".jpg"); TimerFires;
               Request None (Some ".mp4"); TimerFires])
    as (d & w' & _ & _ & Hexit & Hgone & _ & Hnone & _).
  - vm_compute; reflexivity.
  - vm_compute; lia.
  - vm_compute; reflexivity.
  - vm_compute; reflexivity.
  - intros t Ht. vm_compute in Ht. by apply elem_of_nil in Ht.
  - reflexivity.
  - exists d, w'. split_and!; [exact Hexit|exact Hgone|exact Hnone].
Defined.
